(** * Engineering-team client and pipeline: a shallow embedding

    The development follows the TypeScript sources of the front end
    (types, DetailedProgressTracker, OutputViewer, FileUpload,
    EngineeringTeamPage, services/api) and, for the server-side pipeline
    whose code is not part of the sources, the design document. *)

From Stdlib Require Import ZArith Ascii String Bool Lia Sorted.
From stdpp Require Import base tactics option list strings pretty gmap fin_maps.

Local Open Scope string_scope.
Local Open Scope list_scope.
Local Open Scope Z_scope.

(** ** JavaScript primitives used by the components *)

Module JS.

(** [Array.prototype.slice]'s clamping of a relative index: a negative
    index counts from the end, and both ends are clamped to [0, len]. *)
Definition clampIndex (len rel : Z) : Z :=
  if rel <? 0 then Z.max (len + rel) 0 else Z.min rel len.

(** [arr.slice(start, end)]; [end_ = None] is an omitted second argument. *)
Definition slice {A : Type} (start : Z) (end_ : option Z) (arr : list A) : list A :=
  let len := Z.of_nat (length arr) in
  let k := clampIndex len start in
  let final := clampIndex len (default len end_) in
  take (Z.to_nat (final - k)) (drop (Z.to_nat k) arr).

(** [arr.filter((_, i) => i !== index)] *)
Fixpoint filterIndexNe {A : Type} (index : Z) (i : Z) (arr : list A) : list A :=
  match arr with
  | [] => []
  | x :: rest =>
      if i =? index then filterIndexNe index (i + 1) rest
      else x :: filterIndexNe index (i + 1) rest
  end.

(** [s.includes(needle)]: [needle] occurs in [s] as a contiguous
    substring; the empty needle occurs everywhere. *)
Fixpoint includes (s needle : string) : bool :=
  String.prefix needle s ||
  match s with
  | EmptyString => false
  | String _ rest => includes rest needle
  end.

(** [toLowerCase] on the ASCII range: 'A'..'Z' go to 'a'..'z', every
    other character is kept. *)
Definition lowerChar (c : ascii) : ascii :=
  let n := N_of_ascii c in
  if ((65 <=? n) && (n <=? 90))%N then ascii_of_N (n + 32) else c.

Fixpoint toLowerCase (s : string) : string :=
  match s with
  | EmptyString => EmptyString
  | String c rest => String (lowerChar c) (toLowerCase rest)
  end.

(** [a || b] on a possibly undefined string: the empty string and
    [undefined] are both falsy. *)
Definition orElse (a : option string) (b : string) : string :=
  match a with
  | Some (String c r) => String c r
  | _ => b
  end.

End JS.

(** ** types/index.ts *)

Inductive AgentState := idle | working | completed | failed.

Inductive LogLevel := info | warning | error | success.

Inductive FileType := frontend | backend | test | documentation | design.

Record Agent := {
  agent_id : string;
  agent_name : string;
  role : string;
  status : AgentState;
  progress : Z;
  currentTask : option string;
  output : option string
}.

Record LogEntry := {
  log_id : string;
  timestamp : Z;
  agent : string;
  level : LogLevel;
  message : string
}.

Record ProcessingStatus := {
  requestId : string;
  agents : list Agent;
  overallProgress : Z;
  currentPhase : string;
  logs : list LogEntry
}.

Record GeneratedFile := {
  path : string;
  content : string;
  type : FileType
}.

#[global] Instance AgentState_eq_dec : EqDecision AgentState.
Proof. solve_decision. Defined.

#[global] Instance LogLevel_eq_dec : EqDecision LogLevel.
Proof. solve_decision. Defined.

Definition allAgentStates : list AgentState := [idle; working; completed; failed].

(** ** components/DetailedProgressTracker.tsx *)

Module Tracker.

Inductive Icon := Settings | Code | Zap | TestTube | FileText | CheckCircle.

Definition AGENT_ICONS : list (string * Icon) :=
  [ ("Lead Architect", Settings);
    ("Frontend Developer", Code);
    ("Backend Developer", Zap);
    ("Test Engineer", TestTube);
    ("Documentation Writer", FileText) ].

(** [getPhaseProgress], with the status' [currentPhase] as argument. *)
Definition getPhaseProgress (currentPhase : string) : Z :=
  let phase := JS.toLowerCase currentPhase in
  if JS.includes phase "pending" then 0
  else if JS.includes phase "phase 1" || JS.includes phase "creating system design" then 20
  else if JS.includes phase "phase 2" || JS.includes phase "developing frontend" then 40
  else if JS.includes phase "phase 3" || JS.includes phase "developing backend" then 60
  else if JS.includes phase "phase 4" || JS.includes phase "creating test" then 80
  else if JS.includes phase "phase 5" || JS.includes phase "creating documentation" then 90
  else if JS.includes phase "completed" then 100
  else 0.

(** [logs.slice(-10).reverse()] *)
Definition recentLogs (logs : list LogEntry) : list LogEntry :=
  reverse (JS.slice (-10) None logs).

(** The Real-time Activity pane: the entries of [recentLogs] when there
    are any, the placeholder paragraph otherwise. *)
Inductive ActivityPane :=
| LogCards (entries : list LogEntry)
| NoActivityLogsYet.

Definition activityPane (logs : list LogEntry) : ActivityPane :=
  let recent := recentLogs logs in
  if 0 <? Z.of_nat (length recent) then LogCards recent else NoActivityLogsYet.

(** One entry of the Development Timeline array. *)
Record TimelineItem := {
  tl_phase : string;
  tl_icon : Icon;
  tl_progress : bool
}.

Definition timeline (phaseProgress : Z) : list TimelineItem :=
  [ {| tl_phase := "Phase 1: System Design"; tl_icon := Settings;
       tl_progress := phaseProgress >=? 20 |};
    {| tl_phase := "Phase 2: Frontend Development"; tl_icon := Code;
       tl_progress := phaseProgress >=? 40 |};
    {| tl_phase := "Phase 3: Backend Development"; tl_icon := Zap;
       tl_progress := phaseProgress >=? 60 |};
    {| tl_phase := "Phase 4: Test Creation"; tl_icon := TestTube;
       tl_progress := phaseProgress >=? 80 |};
    {| tl_phase := "Phase 5: Documentation"; tl_icon := FileText;
       tl_progress := phaseProgress >=? 90 |} ].

(** What the [.map((item, index) => ...)] over the timeline draws for
    one item: the marker icon, the label, and whether the row is green
    with a trailing check mark. *)
Record TimelineRow := {
  row_marker : Icon;
  row_label : string;
  row_complete : bool
}.

Definition renderItem (item : TimelineItem) : TimelineRow :=
  {| row_marker := if tl_progress item then CheckCircle else tl_icon item;
     row_label := tl_phase item;
     row_complete := tl_progress item |}.

Definition developmentTimeline (processingStatus : ProcessingStatus) : list TimelineRow :=
  let phaseProgress := getPhaseProgress (currentPhase processingStatus) in
  map renderItem (timeline phaseProgress).

End Tracker.

(** ** components/OutputViewer.tsx *)

Module OutputViewer.

(** A value of type [GeneratedFile | null]; reading an array past its
    end would give [undefined]. *)
Inductive Selection :=
| JSNull
| JSUndefined
| Selected (file : GeneratedFile).

(** [files[i]] *)
Definition index (files : list GeneratedFile) (i : nat) : Selection :=
  match files !! i with
  | Some f => Selected f
  | None => JSUndefined
  end.

(** The initial value handed to [React.useState]. *)
Definition initialSelectedFile (files : list GeneratedFile) : Selection :=
  if 0 <? Z.of_nat (length files) then index files 0 else JSNull.

(** [s.split(sep).pop()]: the part of [s] after the last [sep]. *)
Fixpoint splitPop (sep : ascii) (cur s : string) : string :=
  match s with
  | EmptyString => cur
  | String c rest =>
      if Ascii.eqb c sep then splitPop sep EmptyString rest
      else splitPop sep (cur +:+ String c EmptyString) rest
  end.

Definition getFileExtension (path : string) : string :=
  JS.toLowerCase (splitPop "." EmptyString path).

Inductive Rendered :=
| Markdown (text : string)
| Highlighted (language : string) (text : string)
| Preformatted (text : string).

Definition inList (x : string) (l : list string) : bool :=
  existsb (String.eqb x) l.

Definition renderFileContent (file : GeneratedFile) : Rendered :=
  let extension := getFileExtension (path file) in
  if inList extension ["md"; "markdown"] then Markdown (content file)
  else if inList extension
            ["js"; "jsx"; "ts"; "tsx"; "py"; "json"; "yaml"; "yml"; "html"; "css"]
  then Highlighted
         (if String.eqb extension "jsx" then "javascript"
          else if String.eqb extension "tsx" then "typescript"
          else extension)
         (content file)
  else Preformatted (content file).

Record FileButton := {
  fb_name : string;
  fb_type : FileType;
  fb_highlight : bool
}.

Inductive ContentPane :=
| FileContent (path : string) (type : FileType) (body : Rendered)
| SelectAFile.

Inductive View :=
| NoFilesGeneratedYet
| GeneratedFiles (downloadAll : bool) (fileList : list FileButton) (pane : ContentPane).

(** [selectedFile?.path === file.path] *)
Definition samePath (selectedFile : Selection) (file : GeneratedFile) : bool :=
  match selectedFile with
  | Selected s => String.eqb (path s) (path file)
  | _ => false
  end.

Definition fileButton (selectedFile : Selection) (file : GeneratedFile) : FileButton :=
  {| fb_name := splitPop "/" EmptyString (path file);
     fb_type := type file;
     fb_highlight := samePath selectedFile file |}.

(** The component body after the state hook, for the current
    [selectedFile]; [onDownload] tells whether the optional handler was
    passed. *)
Definition render (files : list GeneratedFile) (onDownload : bool)
    (selectedFile : Selection) : View :=
  if Z.of_nat (length files) =? 0 then NoFilesGeneratedYet
  else GeneratedFiles onDownload
         (map (fileButton selectedFile) files)
         (match selectedFile with
          | Selected f => FileContent (path f) (type f) (renderFileContent f)
          | _ => SelectAFile
          end).

(** First render of the component. *)
Definition OutputViewer (files : list GeneratedFile) (onDownload : bool) : View :=
  render files onDownload (initialSelectedFile files).

End OutputViewer.

(** ** components/FileUpload.tsx *)

Module FileUpload.

(** A browser [File], as far as the component reads it. *)
Record File := { file_name : string; file_size : Z }.

(** The component's state hook together with the calls it has made to
    the [onFilesChange] prop, oldest first. *)
Record State := {
  files : list File;
  reported : list (list File)
}.

Definition initial : State := {| files := []; reported := [] |}.

Definition defaultMaxFiles : Z := 5.

Definition onDrop (maxFiles : Z) (st : State) (acceptedFiles : list File) : State :=
  let newFiles := JS.slice 0 (Some maxFiles) (files st ++ acceptedFiles) in
  {| files := newFiles; reported := reported st ++ [newFiles] |}.

Definition removeFile (st : State) (index : Z) : State :=
  let newFiles := JS.filterIndexNe index 0 (files st) in
  {| files := newFiles; reported := reported st ++ [newFiles] |}.

Inductive Event :=
| Drop (acceptedFiles : list File)
| Remove (index : Z).

Definition handle (maxFiles : Z) (st : State) (e : Event) : State :=
  match e with
  | Drop acceptedFiles => onDrop maxFiles st acceptedFiles
  | Remove index => removeFile st index
  end.

Definition run (maxFiles : Z) (events : list Event) : State :=
  fold_left (handle maxFiles) events initial.

(** Six files dropped at once, then the first one removed. *)
Definition sixThenRemove : list Event :=
  [ Drop (map (fun n => {| file_name := n; file_size := 1024 |})
              ["a.md"; "b.md"; "c.md"; "d.md"; "e.md"; "f.md"]);
    Remove 0 ].

End FileUpload.

(** ** services/api.ts *)

Module Api.

Inductive FormValue :=
| Text (s : string)
| Attachment (f : FileUpload.File).

(** A [FormData] body: its entries in the order they were appended; a
    name may repeat. *)
Definition FormData : Type := list (string * FormValue).

Definition append (name : string) (value : FormValue) (formData : FormData) : FormData :=
  formData ++ [(name, value)].

Inductive Method := GET | POST.

Record Request := {
  method : Method;
  baseURL : string;
  url : string;
  timeout : Z;
  headers : list (string * string);
  body : option FormData
}.

(** The argument of [submitProject]; [files] is optional. *)
Record SubmitData := {
  description : string;
  language : string;
  files : option (list FileUpload.File)
}.

(** What awaiting a promise gives. *)
Inductive Settled (A : Type) :=
| Fulfilled (a : A)
| Rejected (reason : string).
Arguments Fulfilled {A} a.
Arguments Rejected {A} reason.

(** Asynchronous client code: it extends the list of requests put on
    the wire and settles. *)
Definition Async (A : Type) : Type := list Request -> list Request * Settled A.

Definition resolve {A : Type} (a : A) : Async A := fun sent => (sent, Fulfilled a).

Definition await {A B : Type} (m : Async A) (k : A -> Async B) : Async B :=
  fun sent =>
    match m sent with
    | (sent', Fulfilled a) => k a sent'
    | (sent', Rejected reason) => (sent', Rejected reason)
    end.

Section Client.

(** The parsed response body. *)
Context {Json : Type}.

Record Response := { data : Json; httpStatus : Z }.

(** [import.meta.env.VITE_API_URL] *)
Variable VITE_API_URL : option string.

(** The HTTP exchange behind the axios instance: the response the
    promise resolves with, or the reason it rejects with. *)
Variable exchange : Request -> Settled Response.

Definition API_BASE_URL : string := JS.orElse VITE_API_URL "http://localhost:8000".

(** [api.post(url, data, config)] on the instance made by
    [axios.create]. *)
Definition post (url : string) (formData : FormData)
    (headers : list (string * string)) : Async Response :=
  fun sent =>
    let request :=
      {| method := POST;
         baseURL := API_BASE_URL +:+ "/api";
         url := url;
         timeout := 30000;
         headers := headers;
         body := Some formData |} in
    (sent ++ [request], exchange request).

Definition buildFormData (d : SubmitData) : FormData :=
  let formData := append "description" (Text (description d)) [] in
  let formData := append "language" (Text (language d)) formData in
  match files d with
  | Some fs => fold_left (fun fd file => append "files" (Attachment file) fd) fs formData
  | None => formData
  end.

Definition submitProject (d : SubmitData) : Async Json :=
  await (post "/projects/submit" (buildFormData d)
           [("Content-Type", "multipart/form-data")])
        (fun response => resolve (data response)).

End Client.

End Api.

(** ** pages/EngineeringTeamPage.tsx *)

Module Page.

(** The JSON answered to a submission, as far as the page reads it. *)
Record Project := {
  id : option string;
  project_status : option string;
  project_language : option string
}.

(** The JSON answered by the status endpoint, as far as the page reads
    it; any field may be missing. *)
Record StatusResponse := {
  resp_error : option string;
  resp_currentPhase : option string;
  resp_overallProgress : option Z
}.

Record State := {
  description : string;
  selectedLanguage : string;
  isSubmitting : bool;
  result : option Project;
  error : string;
  status : option StatusResponse;
  isPolling : bool
}.

Definition initial : State :=
  {| description := "";
     selectedLanguage := "JavaScript/TypeScript";
     isSubmitting := false;
     result := None;
     error := "";
     status := None;
     isPolling := false |}.

(** Truthiness of an optional string. *)
Definition truthy (s : option string) : bool :=
  match s with
  | Some (String _ _) => true
  | _ => false
  end.

(** [result?.id] is truthy. *)
Definition hasId (result : option Project) : bool :=
  match result with
  | Some project => truthy (id project)
  | None => false
  end.

(** The test that ends polling:
    [currentPhase === 'Completed' || currentPhase === 'Failed' ||
     currentPhase?.includes('Complete')]. *)
Definition stopsPolling (currentPhase : option string) : bool :=
  match currentPhase with
  | Some p => String.eqb p "Completed" || String.eqb p "Failed" || JS.includes p "Complete"
  | None => false
  end.

(** [statusResponse.error] is truthy and includes 'not found'. *)
Definition notFoundError (r : StatusResponse) : bool :=
  match resp_error r with
  | Some e => truthy (Some e) && JS.includes e "not found"
  | None => false
  end.

(** The outcome of [await getProjectStatus(result.id)]. *)
Inductive Fetched :=
| Answer (statusResponse : StatusResponse)
| Threw.

Definition pollStatus (st : State) (f : Fetched) : State :=
  match f with
  | Threw => st
  | Answer statusResponse =>
      if notFoundError statusResponse then st
      else
        let st' :=
          {| description := description st;
             selectedLanguage := selectedLanguage st;
             isSubmitting := isSubmitting st;
             result := result st;
             error := error st;
             status := Some statusResponse;
             isPolling := isPolling st |} in
        if stopsPolling (resp_currentPhase statusResponse) then
          {| description := description st';
             selectedLanguage := selectedLanguage st';
             isSubmitting := isSubmitting st';
             result := result st';
             error := error st';
             status := status st';
             isPolling := false |}
        else st'
  end.

(** The effect keeps an interval alive exactly while
    [result?.id && isPolling]. *)
Definition polling (st : State) : bool := hasId (result st) && isPolling st.

(** Characters removed by [trim]. *)
Definition isSpace (c : ascii) : bool :=
  let n := N_of_ascii c in
  ((n =? 32) || ((9 <=? n) && (n <=? 13)))%N.

Fixpoint blank (s : string) : bool :=
  match s with
  | EmptyString => true
  | String c rest => isSpace c && blank rest
  end.

(** The events of the page, each handled at once.  [PollTick f] is a
    call of [pollStatus] by the effect or its interval whose request
    settles as [f] before anything else happens; the effect makes such
    calls only while [polling] holds.  Answers that arrive later than
    that are the subject of [PageAsync] below. *)
Inductive Event :=
| Typed (text : string)
| LanguageChosen (lang : string)
| Submitted (outcome : Api.Settled Project)
| PollingTimerFired
| PollTick (f : Fetched).

(** [handleButtonClick] together with the settling of its request. *)
Definition handleButtonClick (st : State) (outcome : Api.Settled Project) : State :=
  if blank (description st) then st
  else if isSubmitting st then st
  else
    match outcome with
    | Api.Fulfilled project =>
        {| description := "";
           selectedLanguage := selectedLanguage st;
           isSubmitting := false;
           result := Some project;
           error := "";
           status := status st;
           isPolling := isPolling st |}
    | Api.Rejected msg =>
        {| description := description st;
           selectedLanguage := selectedLanguage st;
           isSubmitting := false;
           result := result st;
           error := msg;
           status := status st;
           isPolling := isPolling st |}
    end.

Definition handle (st : State) (e : Event) : State :=
  match e with
  | Typed text =>
      {| description := text;
         selectedLanguage := selectedLanguage st;
         isSubmitting := isSubmitting st;
         result := result st;
         error := error st;
         status := status st;
         isPolling := isPolling st |}
  | LanguageChosen lang =>
      {| description := description st;
         selectedLanguage := lang;
         isSubmitting := isSubmitting st;
         result := result st;
         error := error st;
         status := status st;
         isPolling := isPolling st |}
  | Submitted outcome => handleButtonClick st outcome
  | PollingTimerFired =>
      {| description := description st;
         selectedLanguage := selectedLanguage st;
         isSubmitting := isSubmitting st;
         result := result st;
         error := error st;
         status := status st;
         isPolling := true |}
  | PollTick f => if polling st then pollStatus st f else st
  end.

Definition run (events : list Event) : State := fold_left handle events initial.

(** The guard of the 'Download Project Files' block:
    [status && (status.currentPhase === 'Completed' ||
                status.currentPhase?.includes('Complete'))],
    itself inside the [result && (...)] block. *)
Definition phaseComplete (currentPhase : option string) : bool :=
  match currentPhase with
  | Some p => String.eqb p "Completed" || JS.includes p "Complete"
  | None => false
  end.

Definition showsDownload (st : State) : bool :=
  match result st with
  | Some _ =>
      match status st with
      | Some s => phaseComplete (resp_currentPhase s)
      | None => false
      end
  | None => false
  end.

(** The answer of [fetch] to the download request. *)
Record DownloadResponse := {
  ok : bool;
  http_status : Z;
  blob : string
}.

Inductive DownloadOutcome :=
| NoRequest
| Saved (fileName : string) (contents : string)
| Alerted (msg : string).

(** [handleDownload], given how [fetch] settles for a download of an id:
    a response, or a network failure with its message.  The error thrown
    by [downloadProject] carries the first prefix, the alert adds the
    second. *)
Definition handleDownload (st : State)
    (fetchDownload : string -> DownloadResponse + string) : DownloadOutcome :=
  if negb (hasId (result st)) then NoRequest
  else
    match result st ≫= id with
    | Some projectId =>
        match fetchDownload projectId with
        | inl response =>
            if ok response
            then Saved ("project-" +:+ projectId +:+ ".zip") (blob response)
            else Alerted ("Failed to download project: " +:+
                          "Failed to download project: " +:+ pretty (http_status response))
        | inr msg => Alerted ("Failed to download project: " +:+ msg)
        end
    | None => NoRequest
    end.

(** A page on which a project has been submitted and polling has begun,
    and two answers of the status endpoint. *)
Definition submittedPage : State :=
  run [ Typed "todo app";
        Submitted (Api.Fulfilled {| id := Some "p-1";
                                    project_status := Some "pending";
                                    project_language := Some "Python" |});
        PollingTimerFired ].

Definition failedAnswer : StatusResponse :=
  {| resp_error := None; resp_currentPhase := Some "Failed"; resp_overallProgress := Some 40 |}.

Definition completedAnswer : StatusResponse :=
  {| resp_error := None; resp_currentPhase := Some "Completed";
     resp_overallProgress := Some 100 |}.

End Page.

(** ** The pipeline core

    The orchestrator, the registry and the bundle download run on the
    server, whose code is not among the sources; they are modelled from
    the design document (sections 3, 4.2, 4.3, 4.5). *)

Module Core.

(** Modelled from the spec: the server's stage type is not among the
    sources; these are the five fixed pipeline steps of the glossary. *)
Inductive Stage := Design | Frontend | Backend | Test | Documentation.

(** Modelled from the spec: the orchestrator's ordered list of stages
    (sections 1 and 4.2). *)
Definition stages : list Stage := [Design; Frontend; Backend; Test; Documentation].

(** Modelled from the spec: the 0-based index i of a stage (section 3). *)
Definition stageIndex (st : Stage) : nat :=
  match st with
  | Design => 0 | Frontend => 1 | Backend => 2 | Test => 3 | Documentation => 4
  end.

(** Modelled from the spec: stage i+1, if stage i is not the last
    (4.2 step 3). *)
Definition nextStage (st : Stage) : option Stage :=
  match st with
  | Design => Some Frontend
  | Frontend => Some Backend
  | Backend => Some Test
  | Test => Some Documentation
  | Documentation => None
  end.

(** Modelled from the spec: the stage names of section 1. *)
Definition stageName (st : Stage) : string :=
  match st with
  | Design => "design"
  | Frontend => "frontend"
  | Backend => "backend"
  | Test => "tests"
  | Documentation => "documentation"
  end.

(** Modelled from the spec: the name of the agent of a stage; the
    server's names are not among the sources, these are the keys of the
    client's icon table. *)
Definition agentOf (st : Stage) : string :=
  match st with
  | Design => "Lead Architect"
  | Frontend => "Frontend Developer"
  | Backend => "Backend Developer"
  | Test => "Test Engineer"
  | Documentation => "Documentation Writer"
  end.

(** Modelled from the spec: the server's data model is not among the
    sources; [Artifact] of section 3. *)
Record Artifact := {
  path : string;
  content : string;
  category : FileType
}.

(** Modelled from the spec: [StageResult] of section 3. *)
Inductive StageResult :=
| Success (artifacts : list Artifact) (summaryText : string)
| Failure (reason : string) (isRecoverable : bool).

(** Modelled from the spec: [AgentStatus] of section 3. *)
Record AgentStatus := {
  name : string;
  state : AgentState;
  progressPercent : Z;
  currentTask : option string
}.

(** Modelled from the spec: [LogEntry] of section 3. *)
Record LogEntry := {
  log_id : nat;
  timestamp : Z;
  agentName : string;
  level : LogLevel;
  message : string
}.

(** Modelled from the spec: the [phase] enumeration of section 3. *)
Inductive Phase :=
| Pending
| RunningStage (st : Stage)
| Completed
| Failed.

(** Modelled from the spec: [ProjectState] of section 3. *)
Record ProjectState := {
  id : string;
  description : string;
  language : string;
  phase : Phase;
  agents : list AgentStatus;
  logs : list LogEntry;
  artifacts : list Artifact;
  overallProgress : Z;
  createdAt : Z;
  completedAt : option Z
}.

#[global] Instance Stage_eq_dec : EqDecision Stage.
Proof. solve_decision. Defined.

#[global] Instance Phase_eq_dec : EqDecision Phase.
Proof. solve_decision. Defined.

(** Modelled from the spec: the server's text for a phase is not among
    the sources.  The labels are the ones the client works with: the
    timeline's five phase titles, the two terminal strings the poller
    compares against, and the word the progress function looks for
    before any stage has started. *)
Definition phaseLabel (ph : Phase) : string :=
  match ph with
  | Pending => "Pending"
  | RunningStage Design => "Phase 1: System Design"
  | RunningStage Frontend => "Phase 2: Frontend Development"
  | RunningStage Backend => "Phase 3: Backend Development"
  | RunningStage Test => "Phase 4: Test Creation"
  | RunningStage Documentation => "Phase 5: Documentation"
  | Completed => "Completed"
  | Failed => "Failed"
  end.

(** Modelled from the spec: the state machine of section 4.2,
    [Pending], the stages left to right, then [Completed]; any running
    stage may end the run in [Failed]. *)
Inductive next : Phase -> Phase -> Prop :=
| next_start : next Pending (RunningStage Design)
| next_stage st st' : nextStage st = Some st' -> next (RunningStage st) (RunningStage st')
| next_done : next (RunningStage Documentation) Completed
| next_fail st : next (RunningStage st) Failed.

(** The position of a phase in the left-to-right order of the state
    machine. *)
Definition rank (ph : Phase) : nat :=
  match ph with
  | Pending => 0
  | RunningStage st => S (stageIndex st)
  | Completed => 6
  | Failed => 7
  end.

(** [before p q]: a run that shows phase [p] can show phase [q] at the
    same or a later snapshot. *)
Definition before (p q : Phase) : bool :=
  match p, q with
  | Failed, _ => bool_decide (q = Failed)
  | Completed, _ => bool_decide (q = Completed)
  | _, _ => (rank p <=? rank q)%nat
  end.

(** Modelled from the spec: the two terminal phases (section 3,
    lifecycle). *)
Definition terminal (ph : Phase) : bool :=
  match ph with
  | Completed | Failed => true
  | _ => false
  end.

(** Modelled from the spec: the rounding of 4.2 step 3, [round(n / d)]
    to the nearest integer, halves up, for non-negative [n] and positive
    [d]. *)
Definition roundDiv (n d : Z) : Z := (2 * n + d) / (2 * d).

(** Modelled from the spec: what a Stage Executor is given (4.1). *)
Record Context := {
  ctx_description : string;
  ctx_language : string;
  ctx_referenceFiles : list string;
  ctx_artifacts : list Artifact
}.

(** Modelled from the spec: the retry policy of 4.2 step 4. *)
Definition retryBudget : nat := 2.

(** Modelled from the spec: an agent as created at submission, idle
    (section 3). *)
Definition newAgent (st : Stage) : AgentStatus :=
  {| name := agentOf st; state := idle; progressPercent := 0; currentTask := None |}.

(** Modelled from the spec: a project as the submission handler creates
    it, Pending, with five idle agents in stage order and nothing logged
    or produced (section 3). *)
Definition newProject (pid description language : string) (now : Z) : ProjectState :=
  {| id := pid;
     description := description;
     language := language;
     phase := Pending;
     agents := map newAgent stages;
     logs := [];
     artifacts := [];
     overallProgress := 0;
     createdAt := now;
     completedAt := None |}.

(** Modelled from the spec: the agent updates of 4.2,
    [agents[i].state = state'], and [agents[i].progress = p] when the
    step sets one. *)
Definition setAgent (st : Stage) (state' : AgentState) (progress' : option Z)
    (ags : list AgentStatus) : list AgentStatus :=
  alter (fun a => {| name := name a; state := state';
                     progressPercent := default (progressPercent a) progress';
                     currentTask := currentTask a |})
        (stageIndex st) ags.

(** Modelled from the spec: appending one entry to the append-only log
    (section 3). *)
Definition logged (lvl : LogLevel) (who msg : string) (now : Z)
    (entries : list LogEntry) : list LogEntry :=
  entries ++ [ {| log_id := length entries; timestamp := now; agentName := who;
                  level := lvl; message := msg |} ].

Section Orchestrator.

(** The external generation behind a stage: its answer to the k-th
    attempt of a stage on a context. *)
Variable execute : Stage -> nat -> Context -> StageResult.

(** The time at which a transition from a state commits. *)
Variable clock : ProjectState -> Z.

Variable referenceFiles : list string.

(** Modelled from the spec: the context built for a stage from the
    artifacts so far and the original inputs (4.2 step 2). *)
Definition context (s : ProjectState) : Context :=
  {| ctx_description := description s;
     ctx_language := language s;
     ctx_referenceFiles := referenceFiles;
     ctx_artifacts := artifacts s |}.

(** Modelled from the spec: 4.2, "On start". *)
Definition start (s : ProjectState) : ProjectState :=
  {| id := id s; description := description s; language := language s;
     phase := RunningStage Design;
     agents := setAgent Design working (Some 0) (agents s);
     logs := logs s; artifacts := artifacts s;
     overallProgress := overallProgress s;
     createdAt := createdAt s; completedAt := completedAt s |}.

(** Modelled from the spec: 4.2 step 1. *)
Definition markWorking (st : Stage) (s : ProjectState) : ProjectState :=
  {| id := id s; description := description s; language := language s;
     phase := phase s;
     agents := setAgent st working (Some 0) (agents s);
     logs := logged info (agentOf st) ("Starting " +:+ stageName st) (clock s) (logs s);
     artifacts := artifacts s;
     overallProgress := overallProgress s;
     createdAt := createdAt s; completedAt := completedAt s |}.

(** Modelled from the spec: 4.2 step 3. *)
Definition succeed (st : Stage) (produced : list Artifact) (summary : string)
    (s : ProjectState) : ProjectState :=
  {| id := id s; description := description s; language := language s;
     phase := match nextStage st with
              | Some st' => RunningStage st'
              | None => Completed
              end;
     agents := setAgent st completed (Some 100) (agents s);
     logs := logged success (agentOf st) summary (clock s) (logs s);
     artifacts := artifacts s ++ produced;
     overallProgress := roundDiv (100 * (Z.of_nat (stageIndex st) + 1)) 5;
     createdAt := createdAt s;
     completedAt := match nextStage st with
                    | Some _ => completedAt s
                    | None => Some (clock s)
                    end |}.

(** Modelled from the spec: 4.2 step 4, a failed attempt that will be
    retried leaves one error line. *)
Definition logTransient (st : Stage) (reason : string) (s : ProjectState) : ProjectState :=
  {| id := id s; description := description s; language := language s;
     phase := phase s;
     agents := agents s;
     logs := logged error (agentOf st) reason (clock s) (logs s);
     artifacts := artifacts s;
     overallProgress := overallProgress s;
     createdAt := createdAt s; completedAt := completedAt s |}.

(** Modelled from the spec: 4.2 step 5. *)
Definition fail (st : Stage) (reason : string) (s : ProjectState) : ProjectState :=
  {| id := id s; description := description s; language := language s;
     phase := Failed;
     agents := setAgent st failed None (agents s);
     logs := logged error (agentOf st) reason (clock s) (logs s);
     artifacts := artifacts s;
     overallProgress := overallProgress s;
     createdAt := createdAt s; completedAt := Some (clock s) |}.

(** Modelled from the spec: 4.2 steps 2 to 5 for one stage; the
    snapshots committed from attempt [k] on, with [budget] retries
    left. *)
Fixpoint attempts (st : Stage) (k budget : nat) (s : ProjectState) : list ProjectState :=
  match execute st k (context s) with
  | Success produced summary => [succeed st produced summary s]
  | Failure reason recoverable =>
      match recoverable, budget with
      | true, S budget' =>
          let s' := logTransient st reason s in
          s' :: attempts st (S k) budget' s'
      | _, _ => [fail st reason s]
      end
  end.

(** Modelled from the spec: 4.2 steps 1 to 5 for one stage. *)
Definition runStage (st : Stage) (s : ProjectState) : list ProjectState :=
  let s1 := markWorking st s in
  s1 :: attempts st 0 retryBudget s1.

(** Modelled from the spec: the driving loop over the ordered list of
    stages (4.2, section 9); it stops at the first stage that fails. *)
Fixpoint runStages (sts : list Stage) (s : ProjectState) : list ProjectState :=
  match sts with
  | [] => []
  | st :: rest =>
      let committed := runStage st s in
      let s' := List.last committed s in
      committed ++ match phase s' with
                   | Failed => []
                   | _ => runStages rest s'
                   end
  end.

(** Modelled from the spec: the orchestrator task of one project; every
    snapshot it commits, oldest first, from the state the submission
    registered. *)
Definition snapshots (s0 : ProjectState) : list ProjectState :=
  let s1 := start s0 in
  s0 :: s1 :: runStages stages s1.

End Orchestrator.

(** Modelled from the spec: the outcome of [register] (4.3). *)
Inductive RegisterResult :=
| Registered (registry : gmap string ProjectState)
| DuplicateId.

(** Modelled from the spec: the registry of 4.3 as a finite map from
    project identifiers; [register] refuses an identifier already
    present. *)
Definition register (pid : string) (initialState : ProjectState)
    (registry : gmap string ProjectState) : RegisterResult :=
  match registry !! pid with
  | Some _ => DuplicateId
  | None => Registered (<[pid := initialState]> registry)
  end.

(** Modelled from the spec: the top-level directory of a category in the
    bundle (4.5). *)
Definition categoryDir (c : FileType) : string :=
  match c with
  | frontend => "frontend"
  | backend => "backend"
  | test => "test"
  | documentation => "documentation"
  | design => "design"
  end.

(** Modelled from the spec: the bundle of 4.5 as its entries, every
    artifact at its path below the directory of its category. *)
Definition bundle (s : ProjectState) : list (string * string) :=
  map (fun a => (categoryDir (category a) +:+ "/" +:+ path a, content a)) (artifacts s).

(** Modelled from the spec: what [download] answers (section 6). *)
Inductive DownloadResult :=
| Archive (entries : list (string * string))
| NotReady
| NotFound.

(** Modelled from the spec: the server's download operation is not among
    the sources; by 4.5, 6 and 8 it answers NotFound for an unknown id,
    NotReady unless the phase is Completed, and the archive otherwise. *)
Definition download (registry : gmap string ProjectState) (pid : string) : DownloadResult :=
  match registry !! pid with
  | None => NotFound
  | Some s =>
      match phase s with
      | Completed => Archive (bundle s)
      | _ => NotReady
      end
  end.

(** The agent states of a snapshot, in stage order. *)
Definition agentStates (s : ProjectState) : list AgentState := map state (agents s).

(** The position the pipeline is at: the running stage, 0 before the
    start, 5 after the last stage; a failed run stays at the stage that
    failed. *)
Definition atIndex (s : ProjectState) (i : nat) : Prop :=
  match phase s with
  | Pending => i = 0%nat
  | RunningStage st => i = stageIndex st
  | Completed => i = 5%nat
  | Failed => agentStates s !! i = Some failed
  end.

(** The number of agents in state working. *)
Definition countWorking (s : ProjectState) : nat :=
  length (filter (fun a => a = working) (agentStates s)).

(** The agent states while the stage at position [k] is the current
    one and its agent is in state [mid]: completed before it, idle after
    it. *)
Definition shape (k : nat) (mid : AgentState) : list AgentState :=
  replicate k completed ++ mid :: replicate (4 - k) idle.

(** Stage [st] is the current phase and its agent is in state [mid]. *)
Definition Running (st : Stage) (mid : AgentState) (s : ProjectState) : Prop :=
  phase s = RunningStage st /\ agentStates s = shape (stageIndex st) mid.

(** What the orchestrator keeps true of every state it commits. *)
Definition Inv (s : ProjectState) : Prop :=
  match phase s with
  | Pending => agentStates s = replicate 5 idle
  | RunningStage st =>
      agentStates s = shape (stageIndex st) idle \/
      agentStates s = shape (stageIndex st) working
  | Completed => agentStates s = replicate 5 completed
  | Failed => exists st, agentStates s = shape (stageIndex st) failed
  end.

(** How a stage can leave the pipeline: the next stage is current and has
    not started, or the last stage is done, or the run has failed. *)
Definition Left (st : Stage) (s : ProjectState) : Prop :=
  match nextStage st with
  | Some st' => Running st' idle s
  | None => phase s = Completed /\ agentStates s = replicate 5 completed
  end
  \/ (phase s = Failed /\ agentStates s = shape (stageIndex st) failed).

(** One commit: from a state that is not terminal to a state of the same
    phase or of a phase the state machine allows next. *)
Definition commits (a b : ProjectState) : Prop :=
  Inv a /\ Inv b /\ terminal (phase a) = false /\
  (phase a = phase b \/ next (phase a) (phase b)).

(** The single-in-progress property of a snapshot: five agents, at most
    one of them working, all before the current position completed and
    all after it idle. *)
Definition singleInProgress (s : ProjectState) : Prop :=
  length (agents s) = 5%nat /\
  (countWorking s <= 1)%nat /\
  exists i : nat,
    atIndex s i /\
    forall (j : nat) (x : AgentState),
      agentStates s !! j = Some x ->
      ((j < i)%nat -> x = completed) /\ ((i < j)%nat -> x = idle).

(** What a reader of the registry sees after [n] commits of a run: the
    n-th snapshot, and the last one once the run is over. *)
Definition observed (execute : Stage -> nat -> Context -> StageResult)
    (clock : ProjectState -> Z) (referenceFiles : list string)
    (s0 : ProjectState) (n : nat) : ProjectState :=
  let run := snapshots execute clock referenceFiles s0 in
  match run !! n with
  | Some s => s
  | None => default s0 (last run)
  end.

(** The progress the client derives from a snapshot's phase. *)
Definition displayed (s : ProjectState) : Z :=
  Tracker.getPhaseProgress (phaseLabel (phase s)).

(** The constant each entry of the client's timeline compares the derived
    progress with. *)
Definition timelineThresholds : list Z := [20; 40; 60; 80; 90].

(** Modelled from the spec: the artifact category of a stage, and the
    executors of the two scenarios of section 8. *)
Definition categoryOf (st : Stage) : FileType :=
  match st with
  | Design => design
  | Frontend => frontend
  | Backend => backend
  | Test => test
  | Documentation => documentation
  end.

Definition sampleArtifact (st : Stage) : Artifact :=
  match st with
  | Design => {| path := "design/architecture.md"; content := ""; category := design |}
  | _ => {| path := agentOf st +:+ ".txt"; content := ""; category := categoryOf st |}
  end.

(** Every stage succeeds, the frontend stage on its third attempt after
    two transient failures. *)
Definition flakyFrontend (st : Stage) (k : nat) (_ : Context) : StageResult :=
  match st, k with
  | Frontend, 0%nat | Frontend, 1%nat => Failure "timeout" true
  | _, _ => Success [sampleArtifact st] "done"
  end.

(** The backend stage answers with text no artifact can be parsed from. *)
Definition unparsableBackend (st : Stage) (k : nat) (_ : Context) : StageResult :=
  match st with
  | Backend => Failure "UnparsableResponse" false
  | _ => Success [sampleArtifact st] "done"
  end.

(** A clock that counts log lines. *)
Definition logClock (s : ProjectState) : Z := Z.of_nat (length (logs s)).

Definition todoApp : ProjectState := newProject "p-1" "todo app" "Python" 0.

End Core.

(** ** Further code of the same files *)

(** *** More JavaScript primitives *)

Module JSMore.



(** [parts.join(sep)] *)
Fixpoint join (sep : string) (parts : list string) : string :=
  match parts with
  | [] => EmptyString
  | [x] => x
  | x :: rest => x +:+ sep +:+ join sep rest
  end.

(** [s.trimStart()], [s.trimEnd()] and [s.trim()] on the ASCII range. *)
Fixpoint trimStart (s : string) : string :=
  match s with
  | EmptyString => EmptyString
  | String c rest => if Page.isSpace c then trimStart rest else s
  end.

Fixpoint trimEnd (s : string) : string :=
  match s with
  | EmptyString => EmptyString
  | String c rest =>
      match trimEnd rest with
      | EmptyString => if Page.isSpace c then EmptyString else String c EmptyString
      | String c' rest' => String c (String c' rest')
      end
  end.

Definition trim (s : string) : string := trimEnd (trimStart s).

(** The first and the last character of a text. *)
Definition firstChar (s : string) : option ascii :=
  match s with
  | EmptyString => None
  | String c _ => Some c
  end.

Fixpoint lastChar (s : string) : option ascii :=
  match s with
  | EmptyString => None
  | String c EmptyString => Some c
  | String _ rest => lastChar rest
  end.

End JSMore.

(** *** DetailedProgressTracker: colours of the cards *)

Module TrackerCards.

(** The members of the status and level unions of types/index.ts as the
    strings they are. *)
Definition statusText (a : AgentState) : string :=
  match a with
  | idle => "idle"
  | working => "working"
  | completed => "completed"
  | failed => "failed"
  end.

Definition levelText (l : LogLevel) : string :=
  match l with
  | info => "info"
  | warning => "warning"
  | error => "error"
  | success => "success"
  end.

Definition getStatusColor (status : string) : string :=
  let s := JS.toLowerCase status in
  if String.eqb s "idle" then "text-gray-500 bg-gray-100"
  else if String.eqb s "working" then "text-blue-600 bg-blue-100"
  else if String.eqb s "completed" then "text-green-600 bg-green-100"
  else if String.eqb s "failed" then "text-red-600 bg-red-100"
  else "text-gray-500 bg-gray-100".

Definition getLogLevelColor (level : string) : string :=
  let l := JS.toLowerCase level in
  if String.eqb l "info" then "text-blue-600 bg-blue-50 border-blue-200"
  else if String.eqb l "success" then "text-green-600 bg-green-50 border-green-200"
  else if String.eqb l "warning" then "text-yellow-600 bg-yellow-50 border-yellow-200"
  else if String.eqb l "error" then "text-red-600 bg-red-50 border-red-200"
  else "text-gray-600 bg-gray-50 border-gray-200".

End TrackerCards.

(** *** components/LogViewer.tsx *)

Module LogViewer.

Definition getLogIcon (l : LogLevel) : string :=
  match l with
  | info => "Info text-blue-500"
  | warning => "AlertTriangle text-yellow-500"
  | error => "XCircle text-red-500"
  | success => "CheckCircle2 text-green-500"
  end.

Definition getLogBorderColor (l : LogLevel) : string :=
  match l with
  | info => "border-l-blue-500"
  | warning => "border-l-yellow-500"
  | error => "border-l-red-500"
  | success => "border-l-green-500"
  end.

(** One drawn log line. *)
Record Row := {
  row_key : string;
  row_icon : string;
  row_border : string;
  row_agent : string;
  row_time : Z;
  row_message : string
}.

Definition row (log : LogEntry) : Row :=
  {| row_key := log_id log;
     row_icon := getLogIcon (level log);
     row_border := getLogBorderColor (level log);
     row_agent := agent log;
     row_time := timestamp log;
     row_message := message log |}.

Inductive View :=
| NoLogsYet
| Rows (rows : list Row).

Definition LogViewer (logs : list LogEntry) : View :=
  if Z.of_nat (length logs) =? 0 then NoLogsYet else Rows (map row logs).

End LogViewer.

(** *** components/OutputViewer.tsx: choosing a file *)

Module OutputViewerMore.

(** The click handler of the i-th entry of the file list:
    [setSelectedFile(file)]. *)
Definition clickFile (files : list GeneratedFile) (selectedFile : OutputViewer.Selection)
    (i : nat) : OutputViewer.Selection :=
  match files !! i with
  | Some file => OutputViewer.Selected file
  | None => selectedFile
  end.

(** The highlight flags of a drawn view, in list order. *)
Definition highlights (v : OutputViewer.View) : list bool :=
  match v with
  | OutputViewer.NoFilesGeneratedYet => []
  | OutputViewer.GeneratedFiles _ fileList _ => map OutputViewer.fb_highlight fileList
  end.

Definition pane (v : OutputViewer.View) : option OutputViewer.ContentPane :=
  match v with
  | OutputViewer.NoFilesGeneratedYet => None
  | OutputViewer.GeneratedFiles _ _ p => Some p
  end.

(** Files used as instances below. *)
Definition readme : GeneratedFile :=
  {| path := "README.md"; content := "y"; type := documentation |}.

Definition twoFiles : list GeneratedFile :=
  [ {| path := "src/app.tsx"; content := "x"; type := frontend |}; readme ].

Definition oldDesign : GeneratedFile :=
  {| path := "old/design.md"; content := "d"; type := design |}.

End OutputViewerMore.

(** *** components/FileUpload.tsx: the dropzone options and the rows *)

Module FileUploadMore.

(** [acceptedTypes.reduce((acc, type) => ({ ...acc, [type]: [] }), {})] *)
Definition accept (acceptedTypes : list string) : gmap string (list string) :=
  fold_left (fun acc type => <[type := []]> acc) acceptedTypes ∅.

Definition defaultAcceptedTypes : list string :=
  [".txt"; ".md"; ".pdf"; ".docx"; ".json"; ".yaml"; ".yml"].

(** The [maxFiles] option handed to the dropzone:
    [maxFiles - files.length]. *)
Definition dropzoneMaxFiles (maxFiles : Z) (st : FileUpload.State) : Z :=
  maxFiles - Z.of_nat (length (FileUpload.files st)).

(** [Math.round(file.size / 1024)]: the division by a power of two is
    exact on the sizes a file can have, and [Math.round] is the floor of
    its argument plus one half. *)
Definition sizeKB (file : FileUpload.File) : Z :=
  (2 * FileUpload.file_size file + 1024) / 2048.

(** The 'Uploaded files' block: absent while the list is empty, one row
    per file otherwise. *)
Definition uploadedRows (st : FileUpload.State) : option (list (string * Z)) :=
  if 0 <? Z.of_nat (length (FileUpload.files st))
  then Some (map (fun f => (FileUpload.file_name f, sizeKB f)) (FileUpload.files st))
  else None.

End FileUploadMore.

(** *** services/api.ts: the read calls and the web socket *)

Module ApiMore.

Section Client.

Context {Json : Type}.

Variable VITE_API_URL : option string.

(** The HTTP exchange behind the axios instance, given the request and
    the [responseType] of its config, which only tells how the body is
    decoded. *)
Variable exchange : Api.Request -> option string -> Api.Settled (@Api.Response Json).

(** The request [api.get(url, config)] puts on the wire: the instance's
    base URL and timeout, no headers of its own and no body. *)
Definition getRequest (url : string) : Api.Request :=
  {| Api.method := Api.GET;
     Api.baseURL := Api.API_BASE_URL VITE_API_URL +:+ "/api";
     Api.url := url;
     Api.timeout := 30000;
     Api.headers := [];
     Api.body := None |}.

(** [api.get(url, config)] *)
Definition get (url : string) (responseType : option string) : Api.Async (@Api.Response Json) :=
  fun sent => (sent ++ [getRequest url], exchange (getRequest url) responseType).

Definition getProjectStatus (projectId : string) : Api.Async Json :=
  Api.await (get ("/projects/" +:+ projectId +:+ "/status") None)
            (fun response => Api.resolve (Api.data response)).

Definition getProjectOutput (projectId : string) : Api.Async Json :=
  Api.await (get ("/projects/" +:+ projectId +:+ "/output") None)
            (fun response => Api.resolve (Api.data response)).

Definition downloadProject (projectId : string) : Api.Async Json :=
  Api.await (get ("/projects/" +:+ projectId +:+ "/download") (Some "blob"))
            (fun response => Api.resolve (Api.data response)).

Definition getAllProjects : Api.Async Json :=
  Api.await (get "/projects" None)
            (fun response => Api.resolve (Api.data response)).


(** [JSON.parse], which throws on text that is not JSON. *)
Variable parse : string -> option Json.

(** [ws.onmessage] on one message: the update handed to
    [onStatusUpdate], if any; the calls made so far are kept oldest
    first.  The callback is taken to return normally. *)
Definition onmessage (updates : list Json) (eventData : string) : list Json :=
  match parse eventData with
  | Some data => updates ++ [data]
  | None => updates
  end.

Definition receive (messages : list string) : list Json :=
  fold_left onmessage messages [].

End Client.

End ApiMore.

(** *** pages/EngineeringTeamPage.tsx: the requests and the inputs *)

Module PageMore.

(** A [fetch] call. *)
Record FetchRequest := {
  fetch_url : string;
  fetch_method : Api.Method;
  fetch_body : option Api.FormData
}.

(** What [fetch] resolves with, as far as the page reads it. *)
Record FetchResponse (Body : Type) := {
  resp_ok : bool;
  resp_status : Z;
  resp_text : string;
  resp_json : Body
}.
Arguments resp_ok {Body} _.
Arguments resp_status {Body} _.
Arguments resp_text {Body} _.
Arguments resp_json {Body} _.

(** The request of [submitProjectDirect]. *)
Definition submitRequest (description language : string) : FetchRequest :=
  let formData := Api.append "description" (Api.Text description) [] in
  let formData := Api.append "language" (Api.Text language) formData in
  {| fetch_url := "http://localhost:8000/api/projects/submit";
     fetch_method := Api.POST;
     fetch_body := Some formData |}.

(** [submitProjectDirect] after the response has arrived. *)
Definition submitProjectDirect (response : FetchResponse Page.Project)
    : Api.Settled Page.Project :=
  if negb (resp_ok response)
  then Api.Rejected ("HTTP error! status: " +:+ pretty (resp_status response)
                     +:+ " - " +:+ resp_text response)
  else Api.Fulfilled (resp_json response).

(** The request of the page's [getProjectStatus]. *)
Definition statusRequest (projectId : string) : FetchRequest :=
  {| fetch_url := "http://localhost:8000/api/projects/" +:+ projectId +:+ "/status";
     fetch_method := Api.GET;
     fetch_body := None |}.

(** [await getProjectStatus(result.id)] inside the [try] of [pollStatus]:
    a response that is not ok throws, and so does a failed [fetch]. *)
Definition statusFetched (answer : option (FetchResponse Page.StatusResponse)) : Page.Fetched :=
  match answer with
  | Some response =>
      if negb (resp_ok response) then Page.Threw else Page.Answer (resp_json response)
  | None => Page.Threw
  end.

(** The request a click on the submit button sends, if it sends one. *)
Definition clickRequest (st : Page.State) : option FetchRequest :=
  if Page.blank (Page.description st) then None
  else if Page.isSubmitting st then None
  else Some (submitRequest (JSMore.trim (Page.description st)) (Page.selectedLanguage st)).

(** [disabled={isSubmitting || !description.trim()}] *)
Definition submitDisabled (st : Page.State) : bool :=
  Page.isSubmitting st || Page.blank (Page.description st).

(** The updater both input helpers pass to [setDescription]:
    [prev ? `${prev}\n\n${text}` : text]. *)
Definition newline : string := String (ascii_of_N 10) EmptyString.

Definition appendParagraph (prev text : string) : string :=
  match prev with
  | EmptyString => text
  | String _ _ => prev +:+ newline +:+ newline +:+ text
  end.

(** [fileInput.onchange] of [handleFileAttachment], given the names of
    the chosen files. *)
Definition handleFileAttachment (st : Page.State) (fileNames : list string) : Page.State :=
  if 0 <? Z.of_nat (length fileNames)
  then Page.handle st
         (Page.Typed (appendParagraph (Page.description st)
                        ("Attached files: " +:+ JSMore.join ", " fileNames)))
  else st.

(** [recognition.onresult] of [startVoiceInput]. *)
Definition onVoiceResult (st : Page.State) (transcript : string) : Page.State :=
  Page.handle st (Page.Typed (appendParagraph (Page.description st) transcript)).

(** An answer to a poll that is stored and ends the polling. *)
Definition endsPolling (f : Page.Fetched) : bool :=
  match f with
  | Page.Answer r => negb (Page.notFoundError r) && Page.stopsPolling (Page.resp_currentPhase r)
  | Page.Threw => false
  end.

(** An answer to a poll that is stored. *)
Definition stored (f : Page.Fetched) : bool :=
  match f with
  | Page.Answer r => negb (Page.notFoundError r)
  | Page.Threw => false
  end.

(** The badge class of one entry of the page's 'Active Agents' list. *)
Definition agentBadge (status : string) : string :=
  if String.eqb status "active" then "bg-green-100 text-green-800"
  else if String.eqb status "processing" then "bg-blue-100 text-blue-800"
  else "bg-gray-100 text-gray-800".

(** Inputs used as instances below. *)
Definition typedPage : Page.State := Page.handle Page.initial (Page.Typed "  todo app ").

Definition completedPage : Page.State :=
  Page.handle (Page.pollStatus Page.submittedPage (Page.Answer Page.completedAnswer))
              (Page.Typed "second project").

Definition secondProject : Page.Project :=
  {| Page.id := Some "p-2"; Page.project_status := Some "pending";
     Page.project_language := Some "Go" |}.

Definition polledAnswers : list Page.Fetched :=
  [ Page.Threw;
    Page.Answer {| Page.resp_error := Some "Project not found";
                   Page.resp_currentPhase := None;
                   Page.resp_overallProgress := None |};
    Page.Answer {| Page.resp_error := None;
                   Page.resp_currentPhase := Some "Phase 1: System Design";
                   Page.resp_overallProgress := Some 20 |};
    Page.Answer Page.completedAnswer;
    Page.Answer Page.failedAnswer ].

End PageMore.

(** *** pages/EngineeringTeamPage.tsx: status requests under way *)

Module PageAsync.

(** The page together with the status requests of [pollStatus]: how many
    have been sent and how many of them have settled.  The effect calls
    [pollStatus] only while [result?.id && isPolling]; its cleanup clears
    the interval and nothing else, so a call whose request is under way
    runs to its end, [setStatus] and [setIsPolling] included, whatever
    the page has become in the meantime. *)
Record Session := {
  page : Page.State;
  sent : nat;
  settled : nat
}.

Definition idle (st : Page.State) : Session :=
  {| page := st; sent := 0; settled := 0 |}.

Inductive Step :=
| Ui (e : Page.Event)
| Sent
| Arrived (f : Page.Fetched).

(** The requests an event of the page sends and sees settled at once. *)
Definition requests (st : Page.State) (e : Page.Event) : nat :=
  match e with
  | Page.PollTick _ => if Page.polling st then 1 else 0
  | _ => 0
  end.

(** [Sent]: the effect or its interval calls [pollStatus], which sends
    its request.  [Arrived f]: a request under way settles as [f] and the
    rest of that call of [pollStatus] runs. *)
Definition step (s : Session) (x : Step) : Session :=
  match x with
  | Ui e =>
      {| page := Page.handle (page s) e;
         sent := sent s + requests (page s) e;
         settled := settled s + requests (page s) e |}
  | Sent =>
      if Page.polling (page s)
      then {| page := page s; sent := S (sent s); settled := settled s |}
      else s
  | Arrived f =>
      if Nat.ltb (settled s) (sent s)
      then {| page := Page.pollStatus (page s) f;
              sent := sent s;
              settled := S (settled s) |}
      else s
  end.

Definition run (steps : list Step) (s : Session) : Session := fold_left step steps s.




End PageAsync.

(** * Properties *)

(** ** Array and string primitives *)

Section JSFacts.

Context {A : Type}.
Implicit Types (arr : list A).

Lemma slice_from_end (n : nat) arr :
  JS.slice (- Z.of_nat (S n)) None arr = drop (length arr - S n) arr.
Proof.
  unfold JS.slice, JS.clampIndex; simpl default.
  destruct (Z.ltb_spec (- Z.of_nat (S n)) 0) as [_|]; [|lia].
  destruct (Z.ltb_spec (Z.of_nat (length arr)) 0) as [|_]; [lia|].
  rewrite Z.min_id.
  replace (Z.to_nat (Z.max (Z.of_nat (length arr) + - Z.of_nat (S n)) 0))
    with (length arr - S n)%nat by lia.
  apply take_ge. rewrite length_drop. lia.
Qed.

Lemma slice_prefix (m : Z) arr :
  0 <= m -> JS.slice 0 (Some m) arr = take (Z.to_nat m) arr.
Proof.
  intros Hm. unfold JS.slice, JS.clampIndex; simpl default.
  rewrite Z.ltb_irrefl.
  destruct (Z.ltb_spec m 0) as [|_]; [lia|].
  replace (Z.min 0 (Z.of_nat (length arr))) with 0 by lia.
  change (Z.to_nat 0) with 0%nat. rewrite drop_0, Z.sub_0_r.
  destruct (Z.le_ge_cases m (Z.of_nat (length arr))) as [Hle|Hge].
  - by replace (Z.min m (Z.of_nat (length arr))) with m by lia.
  - replace (Z.min m (Z.of_nat (length arr))) with (Z.of_nat (length arr)) by lia.
    rewrite Nat2Z.id. rewrite !take_ge; [done|lia|lia].
Qed.

Lemma filterIndexNe_sublist index i arr :
  sublist (JS.filterIndexNe index i arr) arr.
Proof.
  revert i. induction arr as [|x rest IH]; intros i; simpl.
  - constructor.
  - destruct (i =? index); [apply sublist_cons | apply sublist_skip]; apply IH.
Qed.

End JSFacts.

(** The primitives on concrete values. *)
Example slice_examples :
  JS.slice (-10) None (seq 1 12) = seq 3 10
  /\ JS.slice (-10) None [1; 2; 3]%nat = [1; 2; 3]%nat
  /\ JS.slice 0 (Some 5) (seq 1 7) = seq 1 5
  /\ JS.slice 0 (Some 5) [1; 2]%nat = [1; 2]%nat
  /\ JS.slice 0 (Some (-1)) [1; 2; 3]%nat = [1; 2]%nat
  /\ JS.filterIndexNe 1 0 ["a"; "b"; "c"] = ["a"; "c"]
  /\ JS.filterIndexNe 7 0 ["a"; "b"; "c"] = ["a"; "b"; "c"].
Proof. repeat split. Qed.

Example string_examples :
  JS.toLowerCase "Phase 5: Documentation" = "phase 5: documentation"
  /\ JS.includes "phase 5: documentation" "phase 5" = true
  /\ JS.includes "completed" "Complete" = false
  /\ JS.includes "Phase 2 Complete" "Complete" = true
  /\ JS.includes "" "" = true
  /\ JS.includes "abc" "bd" = false
  /\ OutputViewer.getFileExtension "docs/README.MD" = "md"
  /\ OutputViewer.splitPop "/" "" "src/app/main.py" = "main.py".
Proof. repeat split. Qed.

(** ** DetailedProgressTracker *)

Lemma getPhaseProgress_range (s : string) :
  In (Tracker.getPhaseProgress s) [0; 20; 40; 60; 80; 90; 100].
Proof.
  unfold Tracker.getPhaseProgress.
  repeat (match goal with
          | |- context [if ?b then _ else _] => destruct b
          end); simpl; tauto.
Qed.

Lemma getPhaseProgress_labels :
  map (fun ph => Tracker.getPhaseProgress (Core.phaseLabel ph))
      (Core.Pending :: map Core.RunningStage Core.stages ++ [Core.Completed; Core.Failed])
  = [0; 20; 40; 60; 80; 90; 100; 0].
Proof. vm_compute. reflexivity. Qed.

(** The first matching branch decides, and the match is on any part of
    the lower-cased text. *)
Example getPhaseProgress_examples :
  Tracker.getPhaseProgress "Phase 5: Documentation" = 90
  /\ Tracker.getPhaseProgress "Creating tests for the backend" = 80
  /\ Tracker.getPhaseProgress "PENDING (phase 3 queued)" = 0
  /\ Tracker.getPhaseProgress "Failed" = 0
  /\ Tracker.getPhaseProgress "" = 0.
Proof. repeat split. Qed.

(** C1, as the claim states it, fails at the fifth stage: while the
    documentation stage is the current phase the client shows 90, which is
    neither 100 nor round(100*5/5) nor a multiple of 20. *)
Lemma getPhaseProgress_stage5_is_90 :
  Tracker.getPhaseProgress (Core.phaseLabel (Core.RunningStage Core.Documentation)) = 90
  /\ 90 <> Core.roundDiv (100 * (Z.of_nat (Core.stageIndex Core.Documentation) + 1)) 5
  /\ ~ (20 | Tracker.getPhaseProgress (Core.phaseLabel (Core.RunningStage Core.Documentation))).
Proof.
  split; [reflexivity|]. split; [vm_compute; discriminate|].
  change (Tracker.getPhaseProgress _) with 90.
  intros [k Hk]. lia.
Qed.

(** C1 (amended): the displayed progress is a function of the phase text
    alone; it is 0 for Pending, 20, 40, 60, 80 and 90 for the five stage
    phases in order, and 100 for Completed.  Whatever the text, the value
    is one of 0, 20, 40, 60, 80, 90, 100, hence a multiple of 10, and for
    the first four stages it is round(100*(i+1)/5). *)
Theorem getPhaseProgress_per_phase :
  Tracker.getPhaseProgress (Core.phaseLabel Core.Pending) = 0
  /\ map (fun st => Tracker.getPhaseProgress (Core.phaseLabel (Core.RunningStage st)))
         Core.stages
     = [20; 40; 60; 80; 90]
  /\ Tracker.getPhaseProgress (Core.phaseLabel Core.Completed) = 100
  /\ (forall s : string,
        In (Tracker.getPhaseProgress s) [0; 20; 40; 60; 80; 90; 100]
        /\ (10 | Tracker.getPhaseProgress s))
  /\ map (fun st => Tracker.getPhaseProgress (Core.phaseLabel (Core.RunningStage st)))
         [Core.Design; Core.Frontend; Core.Backend; Core.Test]
     = map (fun st => Core.roundDiv (100 * (Z.of_nat (Core.stageIndex st) + 1)) 5)
           [Core.Design; Core.Frontend; Core.Backend; Core.Test].
Proof.
  split; [reflexivity|]. split; [reflexivity|]. split; [reflexivity|].
  split; [|reflexivity].
  intros s. pose proof (getPhaseProgress_range s) as Hin.
  split; [exact Hin|].
  simpl in Hin.
  destruct Hin as [<-|[<-|[<-|[<-|[<-|[<-|[<-|[]]]]]]]];
    [exists 0 | exists 2 | exists 4 | exists 6 | exists 8 | exists 9 | exists 10];
    reflexivity.
Qed.

(** ** The activity pane *)

Lemma recentLogs_unfold (logs : list LogEntry) :
  Tracker.recentLogs logs = reverse (drop (length logs - 10) logs).
Proof. unfold Tracker.recentLogs. by rewrite (slice_from_end 9). Qed.

Lemma recentLogs_length (logs : list LogEntry) :
  length (Tracker.recentLogs logs) = Nat.min 10 (length logs).
Proof. rewrite recentLogs_unfold, length_reverse, length_drop. lia. Qed.

Lemma recentLogs_lookup (logs : list LogEntry) (k : nat) :
  (k < Nat.min 10 (length logs))%nat ->
  Tracker.recentLogs logs !! k = logs !! (length logs - 1 - k)%nat.
Proof.
  intros Hk. rewrite recentLogs_unfold.
  rewrite reverse_lookup by (rewrite length_drop; lia).
  rewrite lookup_drop, length_drop. f_equal. lia.
Qed.

(** C9: the Real-time Activity pane lists the last min(10, length) log
    entries, newest first: [recentLogs] is the reversal of the suffix of
    [logs] left after dropping all but its last ten entries, its k-th
    entry is the k-th entry of [logs] counted from the end, and the
    placeholder is drawn instead of entries exactly when [logs] is
    empty. *)
Theorem recentLogs_newest_first (logs : list LogEntry) :
  Tracker.recentLogs logs = reverse (drop (length logs - 10) logs)
  /\ logs = take (length logs - 10) logs ++ reverse (Tracker.recentLogs logs)
  /\ length (Tracker.recentLogs logs) = Nat.min 10 (length logs)
  /\ (forall k : nat,
        Tracker.recentLogs logs !! k =
        if (k <? Nat.min 10 (length logs))%nat
        then logs !! (length logs - 1 - k)%nat else None)
  /\ Tracker.activityPane logs =
     match logs with
     | [] => Tracker.NoActivityLogsYet
     | _ :: _ => Tracker.LogCards (Tracker.recentLogs logs)
     end.
Proof.
  split; [apply recentLogs_unfold|].
  split; [by rewrite recentLogs_unfold, reverse_involutive, take_drop|].
  split; [apply recentLogs_length|].
  split.
  - intros k. destruct (Nat.ltb_spec k (Nat.min 10 (length logs))) as [Hlt|Hge].
    + by apply recentLogs_lookup.
    + apply lookup_ge_None_2. by rewrite recentLogs_length.
  - unfold Tracker.activityPane. cbv zeta.
    rewrite recentLogs_length.
    destruct logs as [|l logs]; [reflexivity|].
    destruct (Z.ltb_spec 0 (Z.of_nat (Nat.min 10 (length (l :: logs))))) as [_|Hle];
      [reflexivity|simpl length in Hle; lia].
Qed.

(** ** OutputViewer *)

(** C10: on an empty list of files the component draws the 'No files
    generated yet' placeholder whatever the selection is and its initial
    selection is null; on a non-empty list the initial selection is the
    first file, which is then the one shown; the initial selection never
    reads past the end of the list. *)
Theorem OutputViewer_initial_selection :
  (forall onDownload selectedFile,
     OutputViewer.render [] onDownload selectedFile = OutputViewer.NoFilesGeneratedYet)
  /\ (forall onDownload,
        OutputViewer.OutputViewer [] onDownload = OutputViewer.NoFilesGeneratedYet)
  /\ OutputViewer.initialSelectedFile [] = OutputViewer.JSNull
  /\ (forall file files,
        OutputViewer.initialSelectedFile (file :: files) = OutputViewer.Selected file)
  /\ (forall files, OutputViewer.initialSelectedFile files <> OutputViewer.JSUndefined)
  /\ (forall file files onDownload,
        OutputViewer.OutputViewer (file :: files) onDownload =
        OutputViewer.GeneratedFiles onDownload
          (map (OutputViewer.fileButton (OutputViewer.Selected file)) (file :: files))
          (OutputViewer.FileContent (path file) (type file)
             (OutputViewer.renderFileContent file))).
Proof.
  split; [reflexivity|].
  split; [reflexivity|].
  split; [reflexivity|].
  split; [reflexivity|].
  split; [|reflexivity].
  intros [|file files]; discriminate.
Qed.

(** ** FileUpload *)

Section FileUploadFacts.

Import FileUpload.

Variable maxFiles : Z.
Hypothesis maxFiles_nonneg : 0 <= maxFiles.

Lemma onDrop_files st acceptedFiles :
  files (onDrop maxFiles st acceptedFiles)
  = take (Z.to_nat maxFiles) (files st ++ acceptedFiles).
Proof. unfold onDrop; simpl. by apply slice_prefix. Qed.

Lemma onDrop_bounded st acceptedFiles :
  Z.of_nat (length (files (onDrop maxFiles st acceptedFiles))) <= maxFiles.
Proof. rewrite onDrop_files, length_take. lia. Qed.

Lemma removeFile_sublist st index :
  sublist (files (removeFile st index)) (files st).
Proof. unfold removeFile; simpl. apply filterIndexNe_sublist. Qed.

Lemma handle_bounded st e :
  Z.of_nat (length (files st)) <= maxFiles ->
  Z.of_nat (length (files (handle maxFiles st e))) <= maxFiles.
Proof.
  intros Hst. destruct e as [acceptedFiles|index]; cbn [handle].
  - apply onDrop_bounded.
  - pose proof (sublist_length _ _ (removeFile_sublist st index)). lia.
Qed.

Lemma handle_reports st e :
  reported (handle maxFiles st e) = reported st ++ [files (handle maxFiles st e)].
Proof. by destruct e. Qed.

Lemma run_snoc events e :
  run maxFiles (events ++ [e]) = handle maxFiles (run maxFiles events) e.
Proof. unfold run. by rewrite fold_left_app. Qed.

Lemma run_bounded events :
  Z.of_nat (length (files (run maxFiles events))) <= maxFiles.
Proof.
  induction events as [|e events IH] using rev_ind.
  - simpl. lia.
  - rewrite run_snoc. by apply handle_bounded.
Qed.

Lemma run_reported events :
  length (reported (run maxFiles events)) = length events
  /\ last (reported (run maxFiles events))
     = match events with
       | [] => None
       | _ :: _ => Some (files (run maxFiles events))
       end
  /\ Forall (fun r => Z.of_nat (length r) <= maxFiles) (reported (run maxFiles events)).
Proof.
  induction events as [|e events (Hlen & Hlast & Hall)] using rev_ind.
  - repeat split; constructor.
  - rewrite run_snoc, handle_reports. split; [|split].
    + rewrite !length_app, Hlen. reflexivity.
    + rewrite last_snoc. by destruct events.
    + apply Forall_app. split; [exact Hall|].
      constructor; [|constructor]. apply handle_bounded, run_bounded.
Qed.

End FileUploadFacts.

(** C8: with a non-negative [maxFiles], after any sequence of drops and
    removals the component holds at most [maxFiles] files; a drop appends
    the accepted files and keeps the first [maxFiles] of the result, a
    removal leaves a sub-list, and every event reports through
    [onFilesChange] exactly the list that is then tracked. *)
Theorem FileUpload_never_exceeds_maxFiles (maxFiles : Z) (events : list FileUpload.Event) :
  0 <= maxFiles ->
  Z.of_nat (length (FileUpload.files (FileUpload.run maxFiles events))) <= maxFiles
  /\ length (FileUpload.reported (FileUpload.run maxFiles events)) = length events
  /\ last (FileUpload.reported (FileUpload.run maxFiles events))
     = match events with
       | [] => None
       | _ :: _ => Some (FileUpload.files (FileUpload.run maxFiles events))
       end
  /\ Forall (fun r => Z.of_nat (length r) <= maxFiles)
            (FileUpload.reported (FileUpload.run maxFiles events))
  /\ (forall acceptedFiles,
        FileUpload.files
          (FileUpload.onDrop maxFiles (FileUpload.run maxFiles events) acceptedFiles)
        = take (Z.to_nat maxFiles)
               (FileUpload.files (FileUpload.run maxFiles events) ++ acceptedFiles))
  /\ (forall index,
        sublist
          (FileUpload.files (FileUpload.removeFile (FileUpload.run maxFiles events) index))
          (FileUpload.files (FileUpload.run maxFiles events))).
Proof.
  intros Hmax.
  split; [by apply run_bounded|].
  destruct (run_reported maxFiles Hmax events) as (Hlen & Hlast & Hall).
  split; [exact Hlen|]. split; [exact Hlast|]. split; [exact Hall|].
  split.
  - intros acceptedFiles. by apply onDrop_files.
  - intros index. apply removeFile_sublist.
Qed.

(** ** services/api *)

Lemma append_assoc (a b c : string) : (a +:+ b) +:+ c = a +:+ (b +:+ c).
Proof.
  induction a as [|ch a IH]; [reflexivity|].
  change (String ch ((a +:+ b) +:+ c) = String ch (a +:+ (b +:+ c))).
  by rewrite IH.
Qed.

Lemma fold_append_files (fs : list FileUpload.File) (formData : Api.FormData) :
  fold_left (fun fd file => Api.append "files" (Api.Attachment file) fd) fs formData
  = formData ++ map (fun file => ("files", Api.Attachment file)) fs.
Proof.
  revert formData. induction fs as [|f fs IH]; intros formData; simpl.
  - by rewrite app_nil_r.
  - rewrite IH. unfold Api.append. by rewrite <- app_assoc.
Qed.

Lemma buildFormData_entries (d : Api.SubmitData) :
  Api.buildFormData d
  = [ ("description", Api.Text (Api.description d));
      ("language", Api.Text (Api.language d)) ]
    ++ map (fun file => ("files", Api.Attachment file)) (default [] (Api.files d)).
Proof.
  unfold Api.buildFormData. destruct (Api.files d) as [fs|]; simpl.
  - by rewrite fold_append_files.
  - reflexivity.
Qed.

(** C7: whatever was sent before, [submitProject] puts exactly one more
    request on the wire: a POST to [/projects/submit] below the [/api]
    base, declared multipart/form-data, whose form holds 'description',
    'language' and then every provided file under the repeated name
    'files', and nothing else; it settles with the body of the response,
    or rejects as the exchange did. *)
Theorem submitProject_request {Json : Type} (VITE_API_URL : option string)
    (exchange : Api.Request -> Api.Settled (@Api.Response Json))
    (d : Api.SubmitData) (sent : list Api.Request) :
  exists request : Api.Request,
    fst (Api.submitProject VITE_API_URL exchange d sent) = sent ++ [request]
    /\ Api.method request = Api.POST
    /\ Api.url request = "/projects/submit"
    /\ Api.baseURL request +:+ Api.url request
       = Api.API_BASE_URL VITE_API_URL +:+ "/api/projects/submit"
    /\ Api.headers request = [("Content-Type", "multipart/form-data")]
    /\ Api.body request
       = Some ([ ("description", Api.Text (Api.description d));
                 ("language", Api.Text (Api.language d)) ]
               ++ map (fun file => ("files", Api.Attachment file))
                      (default [] (Api.files d)))
    /\ snd (Api.submitProject VITE_API_URL exchange d sent)
       = match exchange request with
         | Api.Fulfilled response => Api.Fulfilled (Api.data response)
         | Api.Rejected reason => Api.Rejected reason
         end.
Proof.
  eexists. unfold Api.submitProject, Api.await, Api.post.
  split.
  - match goal with |- context [exchange ?r] => destruct (exchange r) end; reflexivity.
  - split; [reflexivity|]. split; [reflexivity|].
    split; [cbn [Api.baseURL Api.url]; by rewrite append_assoc|].
    split; [reflexivity|].
    split; [cbn [Api.body]; by rewrite buildFormData_entries|].
    match goal with |- context [exchange ?r] => destruct (exchange r) end; reflexivity.
Qed.

(** ** The pipeline core: every commit keeps the invariant *)

Section OrchestratorFacts.

Import Core.

Variable execute : Stage -> nat -> Context -> StageResult.
Variable clock : ProjectState -> Z.
Variable referenceFiles : list string.

Lemma agentStates_setAgent st x p ags :
  map state (setAgent st x p ags) = <[stageIndex st := x]> (map state ags).
Proof.
  unfold setAgent. generalize (stageIndex st) as i.
  induction ags as [|a ags IH]; intros [|i]; simpl; try reflexivity.
  f_equal. apply IH.
Qed.

Lemma insert_shape st mid x :
  <[stageIndex st := x]> (shape (stageIndex st) mid) = shape (stageIndex st) x.
Proof. by destruct st. Qed.

Lemma shape_completed st :
  shape (stageIndex st) completed
  = match nextStage st with
    | Some st' => shape (stageIndex st') idle
    | None => replicate 5 completed
    end.
Proof. by destruct st. Qed.

Lemma start_running s :
  agentStates s = replicate 5 idle -> Running Design working (start s).
Proof.
  intros Hs. split; [reflexivity|].
  unfold agentStates, start; simpl agents.
  rewrite agentStates_setAgent. unfold agentStates in Hs. by rewrite Hs.
Qed.

Lemma markWorking_running st mid s :
  Running st mid s -> Running st working (markWorking clock st s).
Proof.
  intros [Hph Hs]. split; [exact Hph|].
  unfold agentStates, markWorking; simpl agents.
  rewrite agentStates_setAgent. unfold agentStates in Hs. rewrite Hs.
  apply insert_shape.
Qed.

Lemma logTransient_running st mid reason s :
  Running st mid s -> Running st mid (logTransient clock st reason s).
Proof. intros [Hph Hs]. by split. Qed.

Lemma succeed_states st mid produced summary s :
  Running st mid s ->
  agentStates (succeed clock st produced summary s) = shape (stageIndex st) completed.
Proof.
  intros [_ Hs]. unfold agentStates, succeed; simpl agents.
  rewrite agentStates_setAgent. unfold agentStates in Hs. rewrite Hs.
  apply insert_shape.
Qed.

Lemma fail_states st mid reason s :
  Running st mid s ->
  agentStates (fail clock st reason s) = shape (stageIndex st) failed.
Proof.
  intros [_ Hs]. unfold agentStates, fail; simpl agents.
  rewrite agentStates_setAgent. unfold agentStates in Hs. rewrite Hs.
  apply insert_shape.
Qed.

Lemma Running_Inv st mid s :
  mid = idle \/ mid = working -> Running st mid s -> Inv s.
Proof.
  intros Hmid [Hph Hs]. unfold Inv. rewrite Hph.
  destruct Hmid as [-> | ->]; [by left | by right].
Qed.

Lemma Left_Inv st s : Left st s -> Inv s.
Proof.
  unfold Left, Inv. intros [H|[Hph Hs]].
  - destruct (nextStage st) as [st'|].
    + destruct H as [-> Hs]. by left.
    + by destruct H as [-> Hs].
  - rewrite Hph. by exists st.
Qed.

Lemma succeed_Left st produced summary s :
  Running st working s -> Left st (succeed clock st produced summary s).
Proof.
  intros Hrun. left.
  pose proof (succeed_states st working produced summary s Hrun) as Hs.
  rewrite shape_completed in Hs.
  unfold Running. unfold succeed at 1; simpl phase.
  destruct (nextStage st); by split.
Qed.

Lemma fail_Left st reason s :
  Running st working s -> Left st (fail clock st reason s).
Proof. intros Hrun. right. split; [reflexivity|]. by eapply fail_states. Qed.

Lemma Left_next st s s' :
  phase s = RunningStage st -> Left st s' -> next (phase s) (phase s').
Proof.
  intros Hph [H|[Hf _]]; rewrite Hph.
  - destruct st; simpl in H; destruct H as [-> _]; by constructor.
  - rewrite Hf. constructor.
Qed.

Lemma commits_same st mid s s' :
  mid = idle \/ mid = working ->
  Running st mid s -> Running st working s' -> commits s s'.
Proof.
  intros Hmid Hs Hs'. split; [by eapply Running_Inv|].
  split; [eapply Running_Inv; [by right|done]|].
  destruct Hs as [Hph _], Hs' as [Hph' _]. rewrite Hph, Hph'. by split; [|left].
Qed.

Lemma commits_leave st s s' :
  Running st working s -> Left st s' -> commits s s'.
Proof.
  intros Hs Hs'. split; [eapply Running_Inv; [by right|done]|].
  split; [by eapply Left_Inv|].
  destruct Hs as [Hph _]. split; [by rewrite Hph|].
  right. by eapply Left_next.
Qed.

Lemma Sorted_pair {A : Type} (R : A -> A -> Prop) (a b : A) :
  R a b -> Sorted R [a; b].
Proof.
  intros Hab. apply Sorted_cons; [|by apply HdRel_cons].
  apply Sorted_cons; [apply Sorted_nil|apply HdRel_nil].
Qed.

(** The commits of one stage: some retries that stay in the stage, then
    one that leaves it. *)
Lemma attempts_chain st budget :
  forall k s,
    Running st working s ->
    exists mids final,
      attempts execute clock referenceFiles st k budget s = mids ++ [final]
      /\ Sorted commits (s :: mids ++ [final])
      /\ Left st final.
Proof.
  induction budget as [|budget IH]; intros k s Hrun; simpl attempts;
    destruct (execute st k (context referenceFiles s))
      as [produced summary|reason [|]].
  1, 4: exists [], (succeed clock st produced summary s);
        pose proof (succeed_Left st produced summary s Hrun) as Hleft;
        split; [reflexivity|]; split; [|exact Hleft];
        apply Sorted_pair; by apply (commits_leave st).
  1, 2, 4: exists [], (fail clock st reason s);
        pose proof (fail_Left st reason s Hrun) as Hleft;
        split; [reflexivity|]; split; [|exact Hleft];
        apply Sorted_pair; by apply (commits_leave st).
  pose proof (logTransient_running st working reason s Hrun) as Hrun'.
  destruct (IH (S k) _ Hrun') as (mids & final & -> & Hsorted & Hleft).
  exists (logTransient clock st reason s :: mids), final.
  split; [reflexivity|]. split; [|exact Hleft].
  apply Sorted_cons; [exact Hsorted|].
  apply HdRel_cons. eapply commits_same; [by right|exact Hrun|exact Hrun'].
Qed.

Lemma runStage_chain st mid s :
  mid = idle \/ mid = working ->
  Running st mid s ->
  exists mids final,
    runStage execute clock referenceFiles st s = mids ++ [final]
    /\ Sorted commits (s :: mids ++ [final])
    /\ Left st final.
Proof.
  intros Hmid Hrun. unfold runStage.
  pose proof (markWorking_running st mid s Hrun) as Hrun'.
  destruct (attempts_chain st retryBudget 0%nat _ Hrun')
    as (mids & final & -> & Hsorted & Hleft).
  exists (markWorking clock st s :: mids), final.
  split; [reflexivity|]. split; [|exact Hleft].
  apply Sorted_cons; [exact Hsorted|].
  apply HdRel_cons. by eapply commits_same.
Qed.

Lemma Sorted_snoc_app {A : Type} (R : A -> A -> Prop) (a final : A) (mids rest : list A) :
  Sorted R (a :: mids ++ [final]) ->
  Sorted R (final :: rest) ->
  Sorted R (a :: (mids ++ [final]) ++ rest).
Proof.
  revert a. induction mids as [|b mids IH]; intros a Hleft Hright; simpl in *.
  - apply Sorted_inv in Hleft as [_ Hhd]. apply Sorted_cons; [exact Hright|].
    apply HdRel_inv in Hhd. by apply HdRel_cons.
  - apply Sorted_inv in Hleft as [Hleft Hhd]. apply Sorted_cons.
    + by apply IH.
    + apply HdRel_inv in Hhd. by apply HdRel_cons.
Qed.

Lemma stagesFrom_unfold st :
  drop (stageIndex st) stages
  = st :: match nextStage st with
          | Some st' => drop (stageIndex st') stages
          | None => []
          end.
Proof. by destruct st. Qed.

Lemma runStages_chain :
  forall sts st mid s,
    sts = drop (stageIndex st) stages ->
    mid = idle \/ mid = working ->
    Running st mid s ->
    Sorted commits (s :: runStages execute clock referenceFiles sts s).
Proof.
  induction sts as [|st0 rest IH]; intros st mid s Hsts Hmid Hrun.
  - apply Sorted_cons; [apply Sorted_nil|apply HdRel_nil].
  - rewrite stagesFrom_unfold in Hsts. injection Hsts as -> Hrest.
    cbn [runStages].
    destruct (runStage_chain st mid s Hmid Hrun) as (mids & final & -> & Hsorted & Hleft).
    rewrite last_last.
    assert (Hend : Sorted commits (s :: (mids ++ [final]) ++ [])).
    { by rewrite app_nil_r. }
    destruct Hleft as [Hnext|[Hfailed _]]; [|by rewrite Hfailed].
    destruct (nextStage st) as [st'|].
    + destruct Hnext as [Hph Hs]. rewrite Hph.
      apply Sorted_snoc_app; [exact Hsorted|].
      apply (IH st' idle); [exact Hrest|by left|by split].
    + destruct Hnext as [Hph _]. rewrite Hph, Hrest. exact Hend.
Qed.

Lemma newProject_states pid descr lang now :
  agentStates (newProject pid descr lang now) = replicate 5 idle.
Proof. reflexivity. Qed.

Lemma snapshots_chain pid descr lang now :
  Sorted commits (snapshots execute clock referenceFiles (newProject pid descr lang now)).
Proof.
  unfold snapshots.
  pose proof (start_running _ (newProject_states pid descr lang now)) as Hrun.
  apply Sorted_cons.
  - apply (runStages_chain stages Design working); [reflexivity|by right|exact Hrun].
  - apply HdRel_cons. split; [exact (newProject_states pid descr lang now)|].
    split; [eapply Running_Inv; [by right|exact Hrun]|].
    split; [reflexivity|]. right. constructor.
Qed.

(** *** Consequences for the snapshots of a run *)

Lemma chain_Inv (a : ProjectState) (l : list ProjectState) :
  Inv a -> Sorted commits (a :: l) -> Forall Inv (a :: l).
Proof.
  revert a. induction l as [|b l IH]; intros a Ha Hsorted.
  - by apply Forall_cons.
  - apply Forall_cons; split; [exact Ha|].
    apply Sorted_inv in Hsorted as [Hsorted Hhd].
    apply HdRel_inv in Hhd as (_ & Hb & _). by apply IH.
Qed.


Lemma before_spec p q :
  before p q = true <->
  (terminal p = true /\ q = p) \/ (terminal p = false /\ (rank p <= rank q)%nat).
Proof.
  destruct p as [|st| |]; unfold before; cbn [terminal];
    rewrite ?Nat.leb_le, ?bool_decide_eq_true; intuition discriminate.
Qed.

Lemma rank_terminal p q :
  terminal p = true -> terminal q = false -> (rank q < rank p)%nat.
Proof. destruct p, q as [|[]| |]; simpl; intros; try discriminate; lia. Qed.

Lemma before_refl p : before p p = true.
Proof. apply before_spec. destruct (terminal p) eqn:E; [left|right]; auto. Qed.

Lemma before_trans p q r :
  before p q = true -> before q r = true -> before p r = true.
Proof.
  rewrite !before_spec.
  intros [[Hp ->]|[Hp Hpq]] [[Hq ->]|[Hq Hqr]]; try (left; by auto); try congruence.
  - right. by split.
  - right. split; [done|lia].
Qed.

Lemma next_before p q : next p q -> before p q = true.
Proof.
  intros Hnext. apply before_spec. right. split.
  - by destruct Hnext.
  - destruct Hnext as [|st st' Hst| |st].
    + simpl; lia.
    + destruct st; simplify_eq/=; lia.
    + simpl; lia.
    + destruct st; simpl; lia.
Qed.

Lemma commits_before a b : commits a b -> before (phase a) (phase b) = true.
Proof.
  intros (_ & _ & _ & [<-|Hnext]); [apply before_refl|by apply next_before].
Qed.

(** The executable order agrees with the paths of the state machine. *)
Lemma before_rtc p q : before p q = true <-> rtc next p q.
Proof.
  split.
  - intros Hpq.
    assert (H4 : rtc next (RunningStage Test) (RunningStage Documentation))
      by (apply rtc_once; by constructor).
    assert (H3 : rtc next (RunningStage Backend) (RunningStage Test))
      by (apply rtc_once; by constructor).
    assert (H2 : rtc next (RunningStage Frontend) (RunningStage Backend))
      by (apply rtc_once; by constructor).
    assert (H1 : rtc next (RunningStage Design) (RunningStage Frontend))
      by (apply rtc_once; by constructor).
    assert (H0 : rtc next Pending (RunningStage Design))
      by (apply rtc_once; constructor).
    assert (H5 : rtc next (RunningStage Documentation) Completed)
      by (apply rtc_once; constructor).
    assert (Hf : forall st, rtc next (RunningStage st) Failed)
      by (intros st; apply rtc_once; constructor).
    destruct p as [|[]| |], q as [|[]| |]; try discriminate Hpq; try apply rtc_refl;
      repeat (first [ assumption | apply Hf
                    | (etrans; [eassumption|]) ]).
  - induction 1 as [p|p q r Hnext _ IH]; [apply before_refl|].
    eapply before_trans; [by apply next_before|exact IH].
Qed.

Lemma Sorted_weaken {A : Type} (R R' : A -> A -> Prop) (l : list A) :
  (forall a b, R a b -> R' a b) -> Sorted R l -> Sorted R' l.
Proof.
  intros Himpl. induction 1 as [|a l _ IH Hhd]; [apply Sorted_nil|].
  apply Sorted_cons; [exact IH|].
  destruct Hhd; [apply HdRel_nil|apply HdRel_cons; auto].
Qed.

Lemma StronglySorted_lookup_lt {A : Type} (R : A -> A -> Prop) (l : list A) :
  StronglySorted R l ->
  forall i j a b, (i < j)%nat -> l !! i = Some a -> l !! j = Some b -> R a b.
Proof.
  induction 1 as [|a0 l _ IH Hall]; intros i j a b Hij Hi Hj; [done|].
  destruct j as [|j]; [lia|]. simpl in Hj.
  destruct i as [|i]; simpl in Hi.
  - injection Hi as ->. rewrite Forall_forall in Hall.
    apply Hall. by eapply list_elem_of_lookup_2.
  - eapply (IH i j); [lia|done|done].
Qed.

Lemma chain_before (l : list ProjectState) :
  Sorted commits l ->
  forall i j a b, (i <= j)%nat -> l !! i = Some a -> l !! j = Some b ->
                  before (phase a) (phase b) = true.
Proof.
  intros Hsorted i j a b Hij Hi Hj.
  destruct (decide (i = j)) as [->|Hne].
  - rewrite Hi in Hj. injection Hj as ->. apply before_refl.
  - apply (Sorted_weaken _ (fun a b => before (phase a) (phase b) = true)) in Hsorted;
      [|apply commits_before].
    apply Sorted_StronglySorted in Hsorted.
    + eapply (StronglySorted_lookup_lt _ _ Hsorted i j); [lia|done|done].
    + intros x y z. apply before_trans.
Qed.

Lemma Inv_singleInProgress s : Inv s -> singleInProgress s.
Proof.
  unfold Inv, singleInProgress, atIndex, countWorking. intros H.
  assert (Hlen : forall l, agentStates s = l -> length (agents s) = length l).
  { intros l <-. unfold agentStates. by rewrite length_map. }
  destruct (phase s) as [|st| |].
  - split; [by rewrite (Hlen _ H)|]. rewrite H.
    split; [vm_compute; lia|]. exists 0%nat. split; [reflexivity|].
    intros j x Hj.
    repeat (destruct j as [|j];
            [vm_compute in Hj; injection Hj as <-; split; intros; first [reflexivity|lia]|]).
    vm_compute in Hj; discriminate.
  - destruct st, H as [H|H]; (split; [by rewrite (Hlen _ H)|]); rewrite H;
      (split; [vm_compute; lia|]);
      (eexists; split; [reflexivity|]); cbn [stageIndex];
      intros j x Hj;
      repeat (destruct j as [|j];
              [vm_compute in Hj; injection Hj as <-; split; intros; first [reflexivity|lia]|]);
      vm_compute in Hj; discriminate.
  - split; [by rewrite (Hlen _ H)|]. rewrite H.
    split; [vm_compute; lia|]. exists 5%nat. split; [reflexivity|].
    intros j x Hj.
    repeat (destruct j as [|j];
            [vm_compute in Hj; injection Hj as <-; split; intros; first [reflexivity|lia]|]).
    vm_compute in Hj; discriminate.
  - destruct H as [st H]; destruct st;
      (split; [by rewrite (Hlen _ H)|]); rewrite H;
      (split; [vm_compute; lia|]);
      [exists 0%nat|exists 1%nat|exists 2%nat|exists 3%nat|exists 4%nat];
      (split; [reflexivity|]);
      intros j x Hj;
      repeat (destruct j as [|j];
              [vm_compute in Hj; injection Hj as <-; split; intros; first [reflexivity|lia]|]);
      vm_compute in Hj; discriminate.
Qed.

Lemma snapshots_Inv pid descr lang now :
  Forall Inv (snapshots execute clock referenceFiles (newProject pid descr lang now)).
Proof.
  apply chain_Inv; [exact (newProject_states pid descr lang now)|].
  apply snapshots_chain.
Qed.

(** What a reader observes is one of the snapshots: the n-th, or the last
    one when the run has fewer. *)
Lemma observed_lookup s0 n :
  snapshots execute clock referenceFiles s0
    !! Nat.min n (length (snapshots execute clock referenceFiles s0) - 1)
  = Some (observed execute clock referenceFiles s0 n).
Proof.
  unfold observed. cbv zeta.
  set (run := snapshots execute clock referenceFiles s0).
  assert (Hlen : (2 <= length run)%nat) by (subst run; unfold snapshots; cbn [length]; lia).
  destruct (run !! n) as [s|] eqn:Hn.
  - apply lookup_lt_Some in Hn as Hlt.
    by replace (Nat.min n (length run - 1)) with n by lia.
  - apply lookup_ge_None in Hn.
    replace (Nat.min n (length run - 1)) with (pred (length run)) by lia.
    rewrite <- last_lookup. destruct (last run) as [s|] eqn:Hlast; [done|].
    apply last_None in Hlast. rewrite Hlast in Hlen. simpl in Hlen. lia.
Qed.

Lemma observed_before pid descr lang now n m :
  (n <= m)%nat ->
  before (phase (observed execute clock referenceFiles (newProject pid descr lang now) n))
         (phase (observed execute clock referenceFiles (newProject pid descr lang now) m))
  = true.
Proof.
  intros Hnm.
  eapply (chain_before _ (snapshots_chain pid descr lang now));
    [|apply observed_lookup|apply observed_lookup]. lia.
Qed.


Lemma displayed_before p q :
  before p q = true -> q <> Failed ->
  Tracker.getPhaseProgress (phaseLabel p) <= Tracker.getPhaseProgress (phaseLabel q).
Proof.
  intros Hpq Hq.
  destruct p as [|[]| |], q as [|[]| |];
    try discriminate Hpq; try (by destruct Hq); vm_compute; discriminate.
Qed.

Lemma rank_stage_inj ph st :
  terminal ph = false -> rank ph = rank (RunningStage st) -> ph = RunningStage st.
Proof.
  destruct ph as [|st'| |]; simpl; intros Hterm Hrank; try discriminate.
  destruct st', st; simpl in Hrank; try lia; reflexivity.
Qed.

Lemma next_rank p q : next p q -> q = Failed \/ rank q = S (rank p).
Proof.
  intros [|st st' Hst| |st]; auto.
  right. destruct st; simplify_eq/=; reflexivity.
Qed.

(** No stage is skipped: a run that ends in Completed has shown every
    stage as its phase. *)
Lemma chain_visits (l : list ProjectState) :
  forall a,
    Sorted commits (a :: l) ->
    phase <$> last (a :: l) = Some Completed ->
    forall st, (rank (phase a) <= rank (RunningStage st))%nat ->
               Exists (fun s => phase s = RunningStage st) (a :: l).
Proof.
  induction l as [|b l IH]; intros a Hsorted Hlast st Hrank.
  - simpl in Hlast. injection Hlast as Hc. rewrite Hc in Hrank.
    destruct st; simpl in Hrank; lia.
  - apply Sorted_inv in Hsorted as [Hsorted Hhd].
    apply HdRel_inv in Hhd as (Ha & Hb & Hterm & Hstep).
    destruct (decide (phase a = RunningStage st)) as [Heq|Hne];
      [by apply Exists_cons_hd|].
    apply Exists_cons_tl. rewrite last_cons_cons in Hlast.
    apply IH; [exact Hsorted|exact Hlast|].
    assert (Hlt : (rank (phase a) < rank (RunningStage st))%nat).
    { destruct (decide (rank (phase a) = rank (RunningStage st))) as [Heq|]; [|lia].
      by apply rank_stage_inj in Heq. }
    destruct Hstep as [<-|Hnext]; [lia|].
    apply next_rank in Hnext as [Hfailed| ->]; [|lia].
    exfalso. destruct l as [|c l].
    + simpl in Hlast. congruence.
    + apply Sorted_inv in Hsorted as [_ Hhd].
      apply HdRel_inv in Hhd as (_ & _ & Hnot & _).
      rewrite Hfailed in Hnot. discriminate.
Qed.

Lemma snapshots_visit_all pid descr lang now :
  phase <$> last (snapshots execute clock referenceFiles (newProject pid descr lang now))
  = Some Completed ->
  forall st,
    Exists (fun s => phase s = RunningStage st)
           (snapshots execute clock referenceFiles (newProject pid descr lang now)).
Proof.
  intros Hlast st.
  apply chain_visits; [apply snapshots_chain|exact Hlast|simpl; lia].
Qed.

Lemma snapshots_in_order pid descr lang now :
  Sorted (fun a b => phase a = phase b \/ next (phase a) (phase b))
         (snapshots execute clock referenceFiles (newProject pid descr lang now)).
Proof.
  eapply Sorted_weaken; [|apply snapshots_chain].
  by intros a b (_ & _ & _ & Hstep).
Qed.

End OrchestratorFacts.

(** The two scenarios of the design document, run on the model. *)
Example scenario_retry_then_complete :
  let run := Core.snapshots Core.flakyFrontend Core.logClock [] Core.todoApp in
  map Core.overallProgress run = [0; 0; 0; 20; 20; 20; 20; 40; 40; 60; 60; 80; 80; 100]
  /\ (Core.phase <$> last run) = Some Core.Completed
  /\ (length <$> (filter (fun e => Core.level e = error) <$> (Core.logs <$> last run)))
     = Some 2%nat
  /\ (map Core.category <$> (Core.artifacts <$> last run))
     = Some [design; frontend; backend; test; documentation].
Proof. vm_compute. repeat split. Qed.

Example scenario_unparsable_backend :
  let run := Core.snapshots Core.unparsableBackend Core.logClock [] Core.todoApp in
  (Core.phase <$> last run) = Some Core.Failed
  /\ (Core.agentStates <$> last run) = Some [completed; completed; failed; idle; idle]
  /\ (Core.overallProgress <$> last run) = Some 40
  /\ length run = 8%nat.
Proof. vm_compute. repeat split. Qed.

(** C2: in every snapshot of every run, whatever the executors answer,
    there are five agents of which at most one is working, every agent
    before the current position is completed (also when the run has
    failed, the position then being the failed stage) and every agent
    after it is idle; an agent state is one of exactly four values. *)
Theorem single_in_progress
    (execute : Core.Stage -> nat -> Core.Context -> Core.StageResult)
    (clock : Core.ProjectState -> Z) (referenceFiles : list string)
    (pid descr lang : string) (now : Z) :
  Forall Core.singleInProgress
         (Core.snapshots execute clock referenceFiles (Core.newProject pid descr lang now))
  /\ (forall n : nat,
        Core.singleInProgress
          (Core.observed execute clock referenceFiles (Core.newProject pid descr lang now) n))
  /\ (forall x : AgentState, In x allAgentStates)
  /\ NoDup allAgentStates
  /\ length allAgentStates = 4%nat.
Proof.
  pose proof (snapshots_Inv execute clock referenceFiles pid descr lang now) as Hinv.
  split; [|split; [|split; [|split]]].
  - eapply Forall_impl; [exact Hinv|]. intros s. apply Inv_singleInProgress.
  - intros n. apply Inv_singleInProgress.
    rewrite Forall_forall in Hinv. apply Hinv.
    eapply list_elem_of_lookup_2. apply observed_lookup.
  - intros []; cbn; tauto.
  - unfold allAgentStates.
    repeat (constructor; [rewrite ?list_elem_of_In; cbn; intuition discriminate|]).
    constructor.
  - reflexivity.
Qed.

(** C3, as the claim states it, fails on a run that ends in Failed: when
    the backend stage fails, the progress derived from the phase is 60 at
    the sixth commit ('Phase 3: Backend Development') and 0 at the
    seventh ('Failed'). *)
Lemma displayed_drops_at_Failed :
  Core.phase (Core.observed Core.unparsableBackend Core.logClock [] Core.todoApp 6)
  = Core.RunningStage Core.Backend
  /\ Core.phase (Core.observed Core.unparsableBackend Core.logClock [] Core.todoApp 7)
     = Core.Failed
  /\ Tracker.getPhaseProgress "Phase 3: Backend Development" = 60
  /\ Tracker.getPhaseProgress "Failed" = 0
  /\ Core.displayed (Core.observed Core.unparsableBackend Core.logClock [] Core.todoApp 6)
     = 60
  /\ Core.displayed (Core.observed Core.unparsableBackend Core.logClock [] Core.todoApp 7)
     = 0
  /\ ~ (Core.displayed (Core.observed Core.unparsableBackend Core.logClock [] Core.todoApp 7)
        >= Core.displayed (Core.observed Core.unparsableBackend Core.logClock [] Core.todoApp 6)).
Proof.
  do 6 (split; [reflexivity|]).
  vm_compute. intros H. by apply H.
Qed.

(** C3 (amended): along the snapshots of a run the progress derived from
    the phase never decreases as long as the later snapshot is not in
    phase Failed, that is through Pending, the stage phases in order and
    Completed. *)
Theorem displayed_progress_monotone
    (execute : Core.Stage -> nat -> Core.Context -> Core.StageResult)
    (clock : Core.ProjectState -> Z) (referenceFiles : list string)
    (pid descr lang : string) (now : Z) (n m : nat) :
  (n <= m)%nat ->
  Core.phase (Core.observed execute clock referenceFiles
                (Core.newProject pid descr lang now) m) <> Core.Failed ->
  Core.displayed (Core.observed execute clock referenceFiles
                    (Core.newProject pid descr lang now) n)
  <= Core.displayed (Core.observed execute clock referenceFiles
                       (Core.newProject pid descr lang now) m).
Proof.
  intros Hnm Hm. apply displayed_before; [|exact Hm]. by apply observed_before.
Qed.

(** ** The development timeline *)

(** C6: the pipeline has exactly the five stages Design, Frontend,
    Backend, Test, Documentation, each once and in this order; every run
    moves through their phases in this order without a loop or a skip,
    and a run that ends in Completed has shown all five.  The client's
    timeline draws exactly their five phase titles in the same order, the
    k-th one marked complete exactly when the derived progress has
    reached the k-th threshold (20, 40, 60, 80, 90). *)
Theorem timeline_five_stages (processingStatus : ProcessingStatus)
    (execute : Core.Stage -> nat -> Core.Context -> Core.StageResult)
    (clock : Core.ProjectState -> Z) (referenceFiles : list string)
    (pid descr lang : string) (now : Z) :
  Core.stages = [Core.Design; Core.Frontend; Core.Backend; Core.Test; Core.Documentation]
  /\ NoDup Core.stages
  /\ (forall st : Core.Stage, In st Core.stages)
  /\ map Core.stageIndex Core.stages = seq 0 5
  /\ Sorted (fun a b => Core.phase a = Core.phase b \/
                        Core.next (Core.phase a) (Core.phase b))
            (Core.snapshots execute clock referenceFiles
               (Core.newProject pid descr lang now))
  /\ (Core.phase <$> last (Core.snapshots execute clock referenceFiles
                             (Core.newProject pid descr lang now))
      = Some Core.Completed ->
      forall st : Core.Stage,
        Exists (fun s => Core.phase s = Core.RunningStage st)
               (Core.snapshots execute clock referenceFiles
                  (Core.newProject pid descr lang now)))
  /\ map Tracker.row_label (Tracker.developmentTimeline processingStatus)
     = map (fun st => Core.phaseLabel (Core.RunningStage st)) Core.stages
  /\ map Tracker.row_label (Tracker.developmentTimeline processingStatus)
     = [ "Phase 1: System Design"; "Phase 2: Frontend Development";
         "Phase 3: Backend Development"; "Phase 4: Test Creation";
         "Phase 5: Documentation" ]
  /\ map fst Tracker.AGENT_ICONS = map Core.agentOf Core.stages
  /\ map Tracker.row_complete (Tracker.developmentTimeline processingStatus)
     = map (fun threshold =>
              bool_decide (threshold <= Tracker.getPhaseProgress (currentPhase processingStatus)))
           Core.timelineThresholds
  /\ (forall (k : nat) (row : Tracker.TimelineRow) (threshold : Z),
        Tracker.developmentTimeline processingStatus !! k = Some row ->
        Core.timelineThresholds !! k = Some threshold ->
        (Tracker.row_complete row = true <->
         threshold <= Tracker.getPhaseProgress (currentPhase processingStatus))).
Proof.
  assert (Hflags :
    map Tracker.row_complete (Tracker.developmentTimeline processingStatus)
    = map (fun threshold =>
             bool_decide (threshold <= Tracker.getPhaseProgress (currentPhase processingStatus)))
          Core.timelineThresholds).
  { unfold Tracker.developmentTimeline, Tracker.timeline, Core.timelineThresholds.
    cbn [map Tracker.renderItem Tracker.row_complete Tracker.tl_progress].
    repeat f_equal;
      match goal with
      | |- (?p >=? ?c) = bool_decide _ =>
          destruct (Z.geb_spec p c); symmetry;
          [apply bool_decide_eq_true_2 | apply bool_decide_eq_false_2]; lia
      end. }
  split; [reflexivity|].
  split; [unfold Core.stages; repeat (constructor; [rewrite ?list_elem_of_In; cbn; intuition discriminate|]); constructor|].
  split; [intros []; cbn; tauto|].
  split; [reflexivity|].
  split; [apply snapshots_in_order|].
  split; [apply snapshots_visit_all|].
  do 3 (split; [reflexivity|]).
  split; [exact Hflags|].
  intros k row threshold Hrow Hthr.
  assert (Hk : map Tracker.row_complete (Tracker.developmentTimeline processingStatus) !! k
               = Some (Tracker.row_complete row)).
  { by rewrite list_lookup_fmap, Hrow. }
  rewrite Hflags, list_lookup_fmap, Hthr in Hk. simpl in Hk.
  injection Hk as Hk. rewrite <- Hk. apply bool_decide_eq_true.
Qed.

(** ** The page: polling and the download action *)

Section PageFacts.

Import Page.


Lemma phaseComplete_spec (cp : option string) :
  phaseComplete cp = true <->
  exists p, cp = Some p /\ (p = "Completed" \/ JS.includes p "Complete" = true).
Proof.
  destruct cp as [p|]; simpl.
  - rewrite orb_true_iff, String.eqb_eq. split.
    + intros H. exists p. tauto.
    + intros (p' & [= <-] & H). tauto.
  - split; [discriminate|]. by intros (p & H & _).
Qed.

Lemma pollStatus_result st f : result (pollStatus st f) = result st.
Proof.
  destruct f as [r|]; [|reflexivity]. unfold pollStatus.
  destruct (notFoundError r); [reflexivity|].
  by destruct (stopsPolling (resp_currentPhase r)).
Qed.

Lemma pollStatus_status st r :
  status (pollStatus st (Answer r)) = if notFoundError r then status st else Some r.
Proof.
  unfold pollStatus. destruct (notFoundError r); [reflexivity|].
  by destruct (stopsPolling (resp_currentPhase r)).
Qed.

Lemma pollStatus_isPolling st r :
  isPolling (pollStatus st (Answer r))
  = isPolling st && (notFoundError r || negb (stopsPolling (resp_currentPhase r))).
Proof.
  unfold pollStatus. destruct (notFoundError r); simpl.
  - by rewrite andb_true_r.
  - destruct (stopsPolling (resp_currentPhase r)); simpl;
      [by rewrite andb_false_r|by rewrite andb_true_r].
Qed.

Lemma run_snoc_page events e : run (events ++ [e]) = handle (run events) e.
Proof. unfold run. by rewrite fold_left_app. Qed.

(** A status is only ever held for a submitted project. *)
Lemma handle_keeps_result st e :
  (status st <> None -> result st <> None) ->
  status (handle st e) <> None -> result (handle st e) <> None.
Proof.
  intros Hst. destruct e as [text|lang|outcome| |f]; simpl; try exact Hst.
  - unfold handleButtonClick.
    destruct (blank (description st)); [exact Hst|].
    destruct (isSubmitting st); [exact Hst|].
    destruct outcome; simpl; [discriminate|exact Hst].
  - destruct (polling st) eqn:Hpoll; [|exact Hst].
    intros _. rewrite pollStatus_result.
    unfold polling, hasId in Hpoll. by destruct (result st).
Qed.

Lemma run_keeps_result events :
  status (run events) <> None -> result (run events) <> None.
Proof.
  induction events as [|e events IH] using rev_ind; [by intros []|].
  rewrite run_snoc_page. by apply handle_keeps_result.
Qed.

(** Once polling has been switched off, only the timer of a later
    submission brings it back; until then the held status stays. *)
Lemma idle_status_kept (later : list Event) :
  forall st,
    isPolling st = false ->
    PollingTimerFired ∉ later ->
    status (fold_left handle later st) = status st
    /\ isPolling (fold_left handle later st) = false.
Proof.
  induction later as [|e later IH]; intros st Hidle Hnotimer; [done|].
  apply not_elem_of_cons in Hnotimer as [Hne Hnotimer]. simpl.
  assert (Hstep : status (handle st e) = status st /\ isPolling (handle st e) = false).
  { destruct e as [text|lang|outcome| |f]; simpl; try done.
    - unfold handleButtonClick.
      destruct (blank (description st)); [done|].
      destruct (isSubmitting st); [done|]. by destruct outcome.
    - unfold polling. rewrite Hidle, andb_false_r. done. }
  destruct Hstep as [Hstatus Hidle'].
  destruct (IH _ Hidle' Hnotimer) as [-> ->]. done.
Qed.

End PageFacts.

(** A 'not found' answer is skipped; a terminal answer is kept and ends
    the polling. *)
Example pollStatus_examples :
  Page.pollStatus Page.submittedPage
    (Page.Answer {| Page.resp_error := Some "Project not found";
                    Page.resp_currentPhase := None;
                    Page.resp_overallProgress := None |})
  = Page.submittedPage
  /\ Page.status (Page.pollStatus Page.submittedPage (Page.Answer Page.failedAnswer))
     = Some Page.failedAnswer
  /\ Page.isPolling (Page.pollStatus Page.submittedPage (Page.Answer Page.failedAnswer))
     = false
  /\ Page.showsDownload (Page.pollStatus Page.submittedPage (Page.Answer Page.failedAnswer))
     = false
  /\ Page.showsDownload (Page.pollStatus Page.submittedPage (Page.Answer Page.completedAnswer))
     = true.
Proof. repeat split. Qed.

Lemma atomic_poll (s : PageAsync.Session) (f : Page.Fetched) :
  PageAsync.settled s = PageAsync.sent s ->
  PageAsync.page (PageAsync.run [PageAsync.Sent; PageAsync.Arrived f] s)
  = Page.handle (PageAsync.page s) (Page.PollTick f)
  /\ PageAsync.settled (PageAsync.run [PageAsync.Sent; PageAsync.Arrived f] s)
     = PageAsync.sent (PageAsync.run [PageAsync.Sent; PageAsync.Arrived f] s).
Proof.
  intros Heq. cbn [PageAsync.run fold_left PageAsync.step Page.handle].
  destruct (Page.polling (PageAsync.page s)).
  - cbn [PageAsync.page PageAsync.sent PageAsync.settled]. rewrite Heq.
    by rewrite (proj2 (Nat.ltb_lt _ _) (Nat.lt_succ_diag_r _)).
  - by rewrite Heq, Nat.ltb_irrefl.
Qed.





(** ** Download *)

Lemma download_lookup (registry : gmap string Core.ProjectState) (pid : string) :
  Core.download registry pid
  = match registry !! pid with
    | None => Core.NotFound
    | Some s =>
        if decide (Core.phase s = Core.Completed)
        then Core.Archive (Core.bundle s) else Core.NotReady
    end.
Proof.
  unfold Core.download. destruct (registry !! pid) as [s|]; [|reflexivity].
  by destruct (Core.phase s).
Qed.

Lemma phaseComplete_label (ph : Core.Phase) :
  Page.phaseComplete (Some (Core.phaseLabel ph)) = true <-> ph = Core.Completed.
Proof. destruct ph as [|[]| |]; vm_compute; intuition discriminate. Qed.

(** C5: the download of a registered project answers NotReady unless its
    phase is Completed (so in Pending, in every running stage and in
    Failed), and NotFound for an id that is not registered; only a
    Completed project yields the archive.  Whatever has happened on the
    page, it draws the 'Download Project Files' action exactly when the
    status it holds has a currentPhase that is 'Completed' or contains
    'Complete' (of the phase labels only Completed does), and a click
    saves a file only from an ok answer for the submitted id. *)
Theorem download_only_when_completed
    (registry : gmap string Core.ProjectState) (pid : string)
    (events : list Page.Event) :
  (forall s : Core.ProjectState,
     Core.download (<[pid := s]> registry) pid
     = if decide (Core.phase s = Core.Completed)
       then Core.Archive (Core.bundle s) else Core.NotReady)
  /\ (forall s : Core.ProjectState,
        Core.download (<[pid := s]> registry) pid = Core.NotReady <->
        Core.phase s = Core.Pending \/ (exists st, Core.phase s = Core.RunningStage st)
        \/ Core.phase s = Core.Failed)
  /\ Core.download (delete pid registry) pid = Core.NotFound
  /\ (Core.download registry pid = Core.NotFound <-> registry !! pid = None)
  /\ (Page.showsDownload (Page.run events) = true <->
      exists r p,
        Page.status (Page.run events) = Some r
        /\ Page.resp_currentPhase r = Some p
        /\ (p = "Completed" \/ JS.includes p "Complete" = true))
  /\ (forall ph : Core.Phase,
        Page.phaseComplete (Some (Core.phaseLabel ph)) = true <-> ph = Core.Completed)
  /\ (forall fetchDownload fileName contents,
        Page.handleDownload (Page.run events) fetchDownload = Page.Saved fileName contents ->
        exists project projectId response,
          Page.result (Page.run events) = Some project
          /\ Page.id project = Some projectId
          /\ fetchDownload projectId = inl response
          /\ Page.ok response = true
          /\ contents = Page.blob response).
Proof.
  split; [|split; [|split; [|split; [|split; [|split]]]]].
  - intros s. by rewrite download_lookup, lookup_insert_eq.
  - intros s. rewrite download_lookup, lookup_insert_eq.
    destruct (Core.phase s) as [|st| |]; simpl; split; try discriminate; eauto.
    + intros [H|[[st H]|H]]; discriminate.
  - by rewrite download_lookup, lookup_delete_eq.
  - rewrite download_lookup. destruct (registry !! pid) as [s|]; [|done].
    split; [|discriminate]. by destruct (decide _).
  - unfold Page.showsDownload.
    pose proof (run_keeps_result events) as Hkeep.
    destruct (Page.status (Page.run events)) as [r|].
    + destruct (Page.result (Page.run events)) as [project|];
        [|by destruct Hkeep].
      rewrite phaseComplete_spec. split.
      * intros (txt & Htxt & H). by exists r, txt.
      * intros (r' & txt & [= <-] & Htxt & H). by exists txt.
    + destruct (Page.result (Page.run events)); split; try discriminate;
        by intros (r & txt & H & _).
  - apply phaseComplete_label.
  - intros fetchDownload fileName contents Hsaved.
    unfold Page.handleDownload, Page.hasId in Hsaved.
    destruct (Page.result (Page.run events)) as [project|];
      cbn [negb mbind option_bind] in Hsaved; [|discriminate Hsaved].
    destruct (Page.truthy (Page.id project)); cbn [negb] in Hsaved;
      [|discriminate Hsaved].
    destruct (Page.id project) as [projectId|] eqn:Hid; [|discriminate Hsaved].
    destruct (fetchDownload projectId) as [response|msg] eqn:Hfetch; [|discriminate Hsaved].
    destruct (Page.ok response) eqn:Hok; [|discriminate Hsaved].
    injection Hsaved as <- <-. by exists project, projectId, response.
Qed.

(** ** Instances *)

(** C8 at the default limit: six files dropped at once, then one removed. *)
Lemma FileUpload_default_limit :
  0 <= FileUpload.defaultMaxFiles
  /\ Z.of_nat (length (FileUpload.files
                         (FileUpload.run FileUpload.defaultMaxFiles FileUpload.sixThenRemove)))
     <= FileUpload.defaultMaxFiles.
Proof.
  split; [vm_compute; discriminate|].
  exact (proj1 (FileUpload_never_exceeds_maxFiles
                  FileUpload.defaultMaxFiles FileUpload.sixThenRemove
                  ltac:(vm_compute; discriminate))).
Defined.

(** C3 on the retrying run: between its third and its ninth commit. *)
Lemma displayed_progress_retry_run :
  (3 <= 9)%nat
  /\ Core.phase (Core.observed Core.flakyFrontend Core.logClock [] Core.todoApp 9)
     <> Core.Failed
  /\ Core.displayed (Core.observed Core.flakyFrontend Core.logClock [] Core.todoApp 3)
     <= Core.displayed (Core.observed Core.flakyFrontend Core.logClock [] Core.todoApp 9).
Proof.
  split; [lia|]. split; [vm_compute; discriminate|].
  exact (displayed_progress_monotone
           Core.flakyFrontend Core.logClock [] "p-1" "todo app" "Python" 0 3 9
           ltac:(lia) ltac:(vm_compute; discriminate)).
Defined.


(** * Further properties *)

(** ** Texts *)

Lemma append_cons (c : ascii) (a b : string) : String c a +:+ b = String c (a +:+ b).
Proof. reflexivity. Qed.

Lemma append_nil_r (a : string) : a +:+ "" = a.
Proof.
  induction a as [|c a IH]; [reflexivity|]. by rewrite append_cons, IH.
Qed.

Lemma toLowerCase_app (a b : string) :
  JS.toLowerCase (a +:+ b) = JS.toLowerCase a +:+ JS.toLowerCase b.
Proof.
  induction a as [|c a IH]; [reflexivity|].
  rewrite append_cons. cbn [JS.toLowerCase]. by rewrite append_cons, IH.
Qed.

Lemma lowerChar_idem (c : ascii) : JS.lowerChar (JS.lowerChar c) = JS.lowerChar c.
Proof. destruct c as [[] [] [] [] [] [] [] []]; reflexivity. Qed.

Lemma toLowerCase_idem (s : string) : JS.toLowerCase (JS.toLowerCase s) = JS.toLowerCase s.
Proof.
  induction s as [|c s IH]; [reflexivity|].
  cbn [JS.toLowerCase]. by rewrite lowerChar_idem, IH.
Qed.

Lemma str_prefix_nil (s : string) : String.prefix "" s = true.
Proof. by destruct s. Qed.

Lemma str_prefix_cons (a b : ascii) (n s : string) :
  String.prefix (String a n) (String b s)
  = if ascii_dec a b then String.prefix n s else false.
Proof. reflexivity. Qed.

Lemma str_prefix_nil_r (a : ascii) (n : string) : String.prefix (String a n) "" = false.
Proof. reflexivity. Qed.

Lemma str_prefix_app (n s t : string) :
  String.prefix n s = true -> String.prefix n (s +:+ t) = true.
Proof.
  revert s. induction n as [|a n IH]; intros s Hp; [apply str_prefix_nil|].
  destruct s as [|b s]; [by rewrite str_prefix_nil_r in Hp|].
  rewrite append_cons. rewrite str_prefix_cons in *.
  destruct (ascii_dec a b); [by apply IH|discriminate].
Qed.

Lemma str_prefix_self_app (n t : string) : String.prefix n (n +:+ t) = true.
Proof.
  induction n as [|a n IH]; [apply str_prefix_nil|].
  rewrite append_cons, str_prefix_cons.
  destruct (ascii_dec a a); [exact IH|congruence].
Qed.

Lemma includes_unfold (s needle : string) :
  JS.includes s needle
  = String.prefix needle s ||
    match s with
    | EmptyString => false
    | String _ rest => JS.includes rest needle
    end.
Proof. by destruct s. Qed.

Lemma includes_app_l (s t needle : string) :
  JS.includes s needle = true -> JS.includes (s +:+ t) needle = true.
Proof.
  induction s as [|c s IH]; rewrite (includes_unfold _ needle); intros H.
  - rewrite orb_false_r in H. rewrite includes_unfold.
    apply orb_true_iff. left. by apply (str_prefix_app _ "").
  - apply orb_true_iff in H as [H|H].
    + rewrite includes_unfold. apply orb_true_iff. left. by apply str_prefix_app.
    + rewrite append_cons, includes_unfold. apply orb_true_iff. right. by apply IH.
Qed.

Lemma includes_app_r (p s needle : string) :
  JS.includes s needle = true -> JS.includes (p +:+ s) needle = true.
Proof.
  intros H. induction p as [|c p IH]; [exact H|].
  rewrite append_cons, includes_unfold. apply orb_true_iff. by right.
Qed.

Lemma includes_middle (p needle t : string) :
  JS.includes (p +:+ needle +:+ t) needle = true.
Proof.
  apply includes_app_r. rewrite includes_unfold.
  apply orb_true_iff. left. apply str_prefix_self_app.
Qed.

(** The converse: a text includes a needle only if it is some text, the
    needle, and some text. *)
Lemma str_prefix_split (n s : string) :
  String.prefix n s = true -> exists t, s = n +:+ t.
Proof.
  revert s. induction n as [|a n IH]; intros s Hp; [by exists s|].
  destruct s as [|b s]; [by rewrite str_prefix_nil_r in Hp|]. rewrite str_prefix_cons in Hp.
  destruct (ascii_dec a b) as [->|]; [|discriminate].
  destruct (IH _ Hp) as [t ->]. by exists t.
Qed.

Lemma includes_split (s needle : string) :
  JS.includes s needle = true <-> exists p t, s = p +:+ needle +:+ t.
Proof.
  split.
  - induction s as [|c s IH]; rewrite includes_unfold; intros H.
    + rewrite orb_false_r in H. apply str_prefix_split in H as [t Ht]. by exists "", t.
    + apply orb_true_iff in H as [H|H].
      * apply str_prefix_split in H as [t Ht]. by exists "", t.
      * destruct (IH H) as (p & t & ->). by exists (String c p), t.
  - intros (p & t & ->). apply includes_middle.
Qed.

(** ** DetailedProgressTracker: the progress of a text *)

(** X1: a phase text that contains the word pending, in any mix of upper
    and lower case and anywhere in the text, is displayed as 0 percent,
    whatever else the text names. *)
Theorem getPhaseProgress_pending_wins (before word after : string) :
  JS.toLowerCase word = "pending" ->
  Tracker.getPhaseProgress (before +:+ word +:+ after) = 0.
Proof.
  intros Hword. unfold Tracker.getPhaseProgress. cbv zeta.
  rewrite !toLowerCase_app, Hword, includes_middle. reflexivity.
Qed.

Lemma getPhaseProgress_pending_wins_instance :
  JS.toLowerCase "PenDing" = "pending"
  /\ Tracker.getPhaseProgress ("Phase 5 completed, " +:+ "PenDing" +:+ " review") = 0.
Proof.
  split; [reflexivity|].
  exact (getPhaseProgress_pending_wins "Phase 5 completed, " "PenDing" " review" eq_refl).
Defined.

(** X2: the branches are tried in order, so a text that names a phase is
    never displayed above that phase's value: naming 'phase 1' caps the
    display at 20, 'phase 2' at 40, 'phase 3' at 60, 'phase 4' at 80 and
    'phase 5' at 90; and 100 is displayed only for a text that contains
    'completed' and names neither 'pending' nor any 'phase k'. *)
Theorem getPhaseProgress_first_match (s : string) :
  (JS.includes (JS.toLowerCase s) "phase 1" = true -> Tracker.getPhaseProgress s <= 20)
  /\ (JS.includes (JS.toLowerCase s) "phase 2" = true -> Tracker.getPhaseProgress s <= 40)
  /\ (JS.includes (JS.toLowerCase s) "phase 3" = true -> Tracker.getPhaseProgress s <= 60)
  /\ (JS.includes (JS.toLowerCase s) "phase 4" = true -> Tracker.getPhaseProgress s <= 80)
  /\ (JS.includes (JS.toLowerCase s) "phase 5" = true -> Tracker.getPhaseProgress s <= 90)
  /\ (Tracker.getPhaseProgress s = 100 ->
      JS.includes (JS.toLowerCase s) "completed" = true
      /\ JS.includes (JS.toLowerCase s) "pending" = false
      /\ Forall (fun k => JS.includes (JS.toLowerCase s) ("phase " +:+ k) = false)
                ["1"; "2"; "3"; "4"; "5"]).
Proof.
  unfold Tracker.getPhaseProgress. cbv zeta.
  set (t := JS.toLowerCase s).
  destruct (JS.includes t "pending") eqn:Hp.
  { repeat split; intros; try lia; discriminate. }
  destruct (JS.includes t "phase 1") eqn:H1; cbn [orb].
  { repeat split; intros; try lia; discriminate. }
  destruct (JS.includes t "creating system design") eqn:H1'.
  { repeat split; intros; try lia; discriminate. }
  destruct (JS.includes t "phase 2") eqn:H2; cbn [orb].
  { repeat split; intros; try lia; discriminate. }
  destruct (JS.includes t "developing frontend") eqn:H2'.
  { repeat split; intros; try lia; discriminate. }
  destruct (JS.includes t "phase 3") eqn:H3; cbn [orb].
  { repeat split; intros; try lia; discriminate. }
  destruct (JS.includes t "developing backend") eqn:H3'.
  { repeat split; intros; try lia; discriminate. }
  destruct (JS.includes t "phase 4") eqn:H4; cbn [orb].
  { repeat split; intros; try lia; discriminate. }
  destruct (JS.includes t "creating test") eqn:H4'.
  { repeat split; intros; try lia; discriminate. }
  destruct (JS.includes t "phase 5") eqn:H5; cbn [orb].
  { repeat split; intros; try lia; discriminate. }
  destruct (JS.includes t "creating documentation") eqn:H5'.
  { repeat split; intros; try lia; discriminate. }
  destruct (JS.includes t "completed") eqn:Hc.
  - do 5 (split; [intros; discriminate|]).
    intros _. split; [reflexivity|]. split; [reflexivity|].
    apply Forall_cons; split; [exact H1|].
    apply Forall_cons; split; [exact H2|].
    apply Forall_cons; split; [exact H3|].
    apply Forall_cons; split; [exact H4|].
    apply Forall_cons; split; [exact H5|].
    by apply Forall_nil.
  - repeat split; intros; try lia; discriminate.
Qed.

(** ** DetailedProgressTracker: the timeline and the activity pane *)

Lemma timeline_flags (v : Z) :
  exists k : nat,
    (k <= 5)%nat
    /\ map Tracker.tl_progress (Tracker.timeline v)
       = replicate k true ++ replicate (5 - k) false.
Proof.
  unfold Tracker.timeline. cbn [map Tracker.tl_progress].
  destruct (Z.geb_spec v 20); [|exists 0%nat].
  2: { split; [lia|].
       repeat match goal with |- context [?a >=? ?b] =>
         destruct (Z.geb_spec a b); [lia|] end. reflexivity. }
  destruct (Z.geb_spec v 40); [|exists 1%nat].
  2: { split; [lia|].
       repeat match goal with |- context [?a >=? ?b] =>
         destruct (Z.geb_spec a b); [lia|] end. reflexivity. }
  destruct (Z.geb_spec v 60); [|exists 2%nat].
  2: { split; [lia|].
       repeat match goal with |- context [?a >=? ?b] =>
         destruct (Z.geb_spec a b); [lia|] end. reflexivity. }
  destruct (Z.geb_spec v 80); [|exists 3%nat].
  2: { split; [lia|].
       repeat match goal with |- context [?a >=? ?b] =>
         destruct (Z.geb_spec a b); [lia|] end. reflexivity. }
  destruct (Z.geb_spec v 90); [exists 5%nat|exists 4%nat]; split; (lia || reflexivity).
Qed.

(** X3: whatever the phase text, the timeline's completed marks form an
    initial run of its five rows: some k rows from the top are marked
    (drawn with the check mark instead of their own icon) and the other
    5 - k are not, so a later phase is never marked while an earlier one
    is not. *)
Theorem timeline_marks_are_a_prefix (processingStatus : ProcessingStatus) :
  exists k : nat,
    (k <= 5)%nat
    /\ map Tracker.row_complete (Tracker.developmentTimeline processingStatus)
       = replicate k true ++ replicate (5 - k) false
    /\ map Tracker.row_marker (Tracker.developmentTimeline processingStatus)
       = replicate k Tracker.CheckCircle
         ++ drop k [Tracker.Settings; Tracker.Code; Tracker.Zap;
                    Tracker.TestTube; Tracker.FileText].
Proof.
  unfold Tracker.developmentTimeline. cbv zeta.
  destruct (timeline_flags (Tracker.getPhaseProgress (currentPhase processingStatus)))
    as (k & Hk & Hflags).
  exists k. split; [exact Hk|].
  unfold Tracker.timeline in *.
  cbn [map Tracker.renderItem Tracker.row_complete Tracker.row_marker
       Tracker.tl_progress Tracker.tl_icon] in *.
  split; [exact Hflags|].
  revert Hflags.
  generalize (Tracker.getPhaseProgress (currentPhase processingStatus) >=? 20) as b1.
  generalize (Tracker.getPhaseProgress (currentPhase processingStatus) >=? 40) as b2.
  generalize (Tracker.getPhaseProgress (currentPhase processingStatus) >=? 60) as b3.
  generalize (Tracker.getPhaseProgress (currentPhase processingStatus) >=? 80) as b4.
  generalize (Tracker.getPhaseProgress (currentPhase processingStatus) >=? 90) as b5.
  intros b5 b4 b3 b2 b1 Hflags.
  do 6 (destruct k as [|k]; [cbn in Hflags; by simplify_eq|]). lia.
Qed.

(** X4: a new log entry goes on top of the activity pane and pushes the
    others down, the tenth one out: the recent logs of [logs] with one
    entry appended are that entry followed by the first nine recent logs
    of [logs]. *)
Theorem recentLogs_push (logs : list LogEntry) (entry : LogEntry) :
  Tracker.recentLogs (logs ++ [entry]) = entry :: take 9 (Tracker.recentLogs logs).
Proof.
  rewrite !recentLogs_unfold, length_app. cbn [length].
  destruct (decide (length logs <= 9)%nat) as [Hle|Hgt].
  - replace (length logs + 1 - 10)%nat with 0%nat by lia.
    replace (length logs - 10)%nat with 0%nat by lia.
    rewrite !drop_0, reverse_snoc. f_equal.
    symmetry. apply take_ge. rewrite length_reverse. lia.
  - rewrite drop_app_le by lia. rewrite reverse_snoc. f_equal.
    rewrite take_reverse, drop_drop, length_drop. do 2 f_equal. lia.
Qed.

(** X5: the card colours do not depend on the capitalisation of the
    status or level; the four agent statuses get four different colour
    classes and so do the four log levels; a status that is none of the
    four is drawn exactly like idle, while an unknown log level gets a
    colour no known level has. *)
Theorem card_colours :
  (forall s : string,
     TrackerCards.getStatusColor (JS.toLowerCase s) = TrackerCards.getStatusColor s
     /\ TrackerCards.getLogLevelColor (JS.toLowerCase s) = TrackerCards.getLogLevelColor s)
  /\ (forall a b : AgentState,
        TrackerCards.getStatusColor (TrackerCards.statusText a)
        = TrackerCards.getStatusColor (TrackerCards.statusText b) -> a = b)
  /\ (forall a b : LogLevel,
        TrackerCards.getLogLevelColor (TrackerCards.levelText a)
        = TrackerCards.getLogLevelColor (TrackerCards.levelText b) -> a = b)
  /\ (forall s : string,
        (forall a, JS.toLowerCase s <> TrackerCards.statusText a) ->
        TrackerCards.getStatusColor s = TrackerCards.getStatusColor "idle")
  /\ (forall (s : string) (l : LogLevel),
        (forall l', JS.toLowerCase s <> TrackerCards.levelText l') ->
        TrackerCards.getLogLevelColor s
        <> TrackerCards.getLogLevelColor (TrackerCards.levelText l)).
Proof.
  split; [|split; [|split; [|split]]].
  - intros s. unfold TrackerCards.getStatusColor, TrackerCards.getLogLevelColor.
    cbv zeta. by rewrite toLowerCase_idem.
  - intros [] []; vm_compute; congruence.
  - intros [] []; vm_compute; congruence.
  - intros s Hnone. unfold TrackerCards.getStatusColor at 1. cbv zeta.
    destruct (String.eqb_spec (JS.toLowerCase s) "idle") as [E|_];
      [by destruct (Hnone idle)|].
    destruct (String.eqb_spec (JS.toLowerCase s) "working") as [E|_];
      [by destruct (Hnone working)|].
    destruct (String.eqb_spec (JS.toLowerCase s) "completed") as [E|_];
      [by destruct (Hnone completed)|].
    destruct (String.eqb_spec (JS.toLowerCase s) "failed") as [E|_];
      [by destruct (Hnone failed)|].
    reflexivity.
  - intros s l Hnone. unfold TrackerCards.getLogLevelColor at 1. cbv zeta.
    destruct (String.eqb_spec (JS.toLowerCase s) "info") as [E|_];
      [by destruct (Hnone info)|].
    destruct (String.eqb_spec (JS.toLowerCase s) "success") as [E|_];
      [by destruct (Hnone success)|].
    destruct (String.eqb_spec (JS.toLowerCase s) "warning") as [E|_];
      [by destruct (Hnone warning)|].
    destruct (String.eqb_spec (JS.toLowerCase s) "error") as [E|_];
      [by destruct (Hnone error)|].
    destruct l; vm_compute; discriminate.
Qed.

(** ** LogViewer *)

(** X6: the log viewer draws every log entry, in the order given, and
    its placeholder exactly when the activity pane draws its own; every
    entry of the activity pane is one the viewer draws, and with at most
    ten entries the pane lists the viewer's entries in reverse. *)
Theorem LogViewer_and_activity_pane (logs : list LogEntry) :
  LogViewer.LogViewer logs
  = match logs with
    | [] => LogViewer.NoLogsYet
    | _ :: _ => LogViewer.Rows (map LogViewer.row logs)
    end
  /\ (LogViewer.LogViewer logs = LogViewer.NoLogsYet <->
      Tracker.activityPane logs = Tracker.NoActivityLogsYet)
  /\ map LogViewer.row_key (map LogViewer.row logs) = map log_id logs
  /\ (forall e, e ∈ Tracker.recentLogs logs -> e ∈ logs)
  /\ ((length logs <= 10)%nat -> Tracker.recentLogs logs = reverse logs).
Proof.
  split; [by destruct logs|].
  split.
  - destruct logs as [|l logs]; [by split|].
    split; [discriminate|].
    unfold Tracker.activityPane. cbv zeta. rewrite recentLogs_length.
    destruct (Z.ltb_spec 0 (Z.of_nat (Nat.min 10 (length (l :: logs))))) as [_|Hle];
      [discriminate|simpl length in Hle; lia].
  - split; [by rewrite map_map|].
    split.
    + intros e. rewrite recentLogs_unfold, elem_of_reverse. apply subseteq_drop.
    + intros Hlen. rewrite recentLogs_unfold.
      by replace (length logs - 10)%nat with 0%nat by lia.
Qed.

(** ** OutputViewer: names, extensions and the selection *)

Lemma includes_char_nil (sep : ascii) : JS.includes "" (String sep "") = false.
Proof. reflexivity. Qed.

Lemma includes_char_cons (sep c : ascii) (s : string) :
  JS.includes (String c s) (String sep "")
  = Ascii.eqb c sep || JS.includes s (String sep "").
Proof.
  rewrite includes_unfold, str_prefix_cons, str_prefix_nil. f_equal.
  destruct (ascii_dec sep c) as [Heq|Hne]; destruct (Ascii.eqb_spec c sep); congruence.
Qed.

Lemma includes_char_app (sep : ascii) (a b : string) :
  JS.includes (a +:+ b) (String sep "")
  = JS.includes a (String sep "") || JS.includes b (String sep "").
Proof.
  induction a as [|c a IH]; [reflexivity|].
  rewrite append_cons, !includes_char_cons, IH. by rewrite orb_assoc.
Qed.

Lemma splitPop_cons (sep c : ascii) (cur s : string) :
  OutputViewer.splitPop sep cur (String c s)
  = if Ascii.eqb c sep then OutputViewer.splitPop sep "" s
    else OutputViewer.splitPop sep (cur +:+ String c "") s.
Proof. reflexivity. Qed.

(** The accumulator is dropped at a separator and returned with the rest
    when there is none. *)
Lemma splitPop_acc (sep : ascii) (s : string) :
  forall cur,
    OutputViewer.splitPop sep cur s
    = if JS.includes s (String sep "") then OutputViewer.splitPop sep "" s
      else cur +:+ s.
Proof.
  induction s as [|c s IH]; intros cur.
  - cbn [OutputViewer.splitPop]. by rewrite includes_char_nil, append_nil_r.
  - rewrite !splitPop_cons, includes_char_cons.
    destruct (Ascii.eqb c sep); [reflexivity|]. cbn [orb].
    rewrite (IH (cur +:+ String c "")), (IH ("" +:+ String c "")).
    destruct (JS.includes s (String sep "")); [reflexivity|].
    by rewrite append_assoc.
Qed.

Lemma splitPop_after_sep (sep : ascii) (a b : string) :
  forall cur,
    OutputViewer.splitPop sep cur (a +:+ String sep b) = OutputViewer.splitPop sep "" b.
Proof.
  induction a as [|c a IH]; intros cur.
  - change ("" +:+ String sep b) with (String sep b).
    by rewrite splitPop_cons, Ascii.eqb_refl.
  - rewrite append_cons, splitPop_cons. destruct (Ascii.eqb c sep); apply IH.
Qed.

Lemma splitPop_no_sep (sep : ascii) (s : string) :
  forall cur,
    JS.includes cur (String sep "") = false ->
    JS.includes (OutputViewer.splitPop sep cur s) (String sep "") = false.
Proof.
  induction s as [|c s IH]; intros cur Hcur; [exact Hcur|].
  rewrite splitPop_cons. destruct (Ascii.eqb c sep) eqn:Hc.
  - by apply IH.
  - apply IH. rewrite includes_char_app, Hcur, includes_char_cons, Hc. reflexivity.
Qed.

Lemma splitPop_last_part (sep : ascii) (dir name : string) :
  JS.includes name (String sep "") = false ->
  OutputViewer.splitPop sep "" (dir +:+ String sep name) = name.
Proof.
  intros Hname. rewrite splitPop_after_sep, splitPop_acc, Hname. reflexivity.
Qed.

(** X7: the name drawn for a file is the part of its path after the last
    '/': it never contains a '/', it is [name] for a path [dir/name]
    whose [name] has no '/', and it is the whole path when the path has
    no '/'. *)
Theorem fileButton_name (selectedFile : OutputViewer.Selection) (file : GeneratedFile) :
  JS.includes (OutputViewer.fb_name (OutputViewer.fileButton selectedFile file)) "/" = false
  /\ (forall dir name,
        JS.includes name "/" = false ->
        path file = dir +:+ "/" +:+ name ->
        OutputViewer.fb_name (OutputViewer.fileButton selectedFile file) = name)
  /\ (JS.includes (path file) "/" = false ->
      OutputViewer.fb_name (OutputViewer.fileButton selectedFile file) = path file).
Proof.
  cbn [OutputViewer.fileButton OutputViewer.fb_name].
  split; [by apply splitPop_no_sep|]. split.
  - intros dir name Hname ->. by apply (splitPop_last_part "/").
  - intros Hpath. by rewrite splitPop_acc, Hpath.
Qed.


(** X9: after a click on the i-th entry the pane shows that file, and the
    entries highlighted are exactly those whose path equals its path, the
    clicked one among them. *)
Theorem clickFile_highlights (files : list GeneratedFile) (onDownload : bool)
    (selectedFile : OutputViewer.Selection) (i : nat) (file : GeneratedFile) :
  files !! i = Some file ->
  OutputViewerMore.pane
    (OutputViewer.render files onDownload (OutputViewerMore.clickFile files selectedFile i))
  = Some (OutputViewer.FileContent (path file) (type file)
            (OutputViewer.renderFileContent file))
  /\ OutputViewerMore.highlights
       (OutputViewer.render files onDownload (OutputViewerMore.clickFile files selectedFile i))
     !! i = Some true
  /\ (forall j : nat,
        OutputViewerMore.highlights
          (OutputViewer.render files onDownload
             (OutputViewerMore.clickFile files selectedFile i)) !! j = Some true
        <-> exists other, files !! j = Some other /\ path other = path file).
Proof.
  intros Hi. unfold OutputViewerMore.clickFile. rewrite Hi.
  unfold OutputViewer.render.
  destruct (Z.eqb_spec (Z.of_nat (length files)) 0) as [Hz|_].
  { apply lookup_lt_Some in Hi. lia. }
  cbn [OutputViewerMore.pane OutputViewerMore.highlights].
  split; [reflexivity|].
  assert (Hj : forall j,
    map OutputViewer.fb_highlight
        (map (OutputViewer.fileButton (OutputViewer.Selected file)) files) !! j = Some true
    <-> exists other, files !! j = Some other /\ path other = path file).
  { intros j. rewrite !list_lookup_fmap.
    destruct (files !! j) as [other|]; cbn.
    - split.
      + intros [= Heq]. apply String.eqb_eq in Heq. by exists other.
      + intros (o & [= <-] & Heq). f_equal. apply String.eqb_eq. by symmetry.
    - split; [discriminate|]. by intros (o & H & _). }
  split; [|exact Hj]. apply Hj. by exists file.
Qed.

(** X10: when no listed file has the path of the selected file, as after
    the list of files has been replaced, the viewer still shows the
    selected file's content and highlights no entry. *)
Theorem stale_selection_is_kept (files : list GeneratedFile) (onDownload : bool)
    (file : GeneratedFile) :
  files <> [] ->
  (forall other, other ∈ files -> path other <> path file) ->
  OutputViewerMore.pane (OutputViewer.render files onDownload (OutputViewer.Selected file))
  = Some (OutputViewer.FileContent (path file) (type file)
            (OutputViewer.renderFileContent file))
  /\ OutputViewerMore.highlights
       (OutputViewer.render files onDownload (OutputViewer.Selected file))
     = replicate (length files) false.
Proof.
  intros Hne Hother. unfold OutputViewer.render.
  destruct (Z.eqb_spec (Z.of_nat (length files)) 0) as [Hz|_].
  { destruct files; [done|simpl in Hz; lia]. }
  cbn [OutputViewerMore.pane OutputViewerMore.highlights].
  split; [reflexivity|]. clear Hne.
  induction files as [|other files IH]; [reflexivity|].
  cbn [map length replicate]. f_equal.
  - cbn. apply String.eqb_neq. intros Heq.
    apply (Hother other); [left|by symmetry].
  - apply IH. intros o Ho. apply Hother. by right.
Qed.

Lemma clickFile_highlights_instance :
  OutputViewerMore.twoFiles !! 1%nat = Some OutputViewerMore.readme
  /\ OutputViewerMore.pane
       (OutputViewer.render OutputViewerMore.twoFiles true
          (OutputViewerMore.clickFile OutputViewerMore.twoFiles OutputViewer.JSNull 1))
     = Some (OutputViewer.FileContent "README.md" documentation
               (OutputViewer.renderFileContent OutputViewerMore.readme)).
Proof.
  split; [reflexivity|].
  exact (proj1 (clickFile_highlights OutputViewerMore.twoFiles true OutputViewer.JSNull 1
                  OutputViewerMore.readme eq_refl)).
Defined.

Lemma stale_selection_instance :
  OutputViewerMore.twoFiles <> []
  /\ (forall other,
        other ∈ OutputViewerMore.twoFiles -> path other <> path OutputViewerMore.oldDesign)
  /\ OutputViewerMore.highlights
       (OutputViewer.render OutputViewerMore.twoFiles false
          (OutputViewer.Selected OutputViewerMore.oldDesign))
     = [false; false].
Proof.
  assert (H1 : OutputViewerMore.twoFiles <> []) by discriminate.
  assert (H2 : forall other,
             other ∈ OutputViewerMore.twoFiles ->
             path other <> path OutputViewerMore.oldDesign).
  { intros other Hin. unfold OutputViewerMore.twoFiles in Hin.
    apply elem_of_cons in Hin as [->|Hin]; [discriminate|].
    apply list_elem_of_singleton in Hin as ->. discriminate. }
  split; [exact H1|]. split; [exact H2|].
  exact (proj2 (stale_selection_is_kept OutputViewerMore.twoFiles false
                  OutputViewerMore.oldDesign H1 H2)).
Defined.

(** ** FileUpload: drops, removals and the dropzone options *)

Lemma filterIndexNe_before {A : Type} (arr : list A) :
  forall index i, index < i -> JS.filterIndexNe index i arr = arr.
Proof.
  induction arr as [|x arr IH]; intros index i Hlt; [reflexivity|].
  cbn [JS.filterIndexNe]. destruct (Z.eqb_spec i index); [lia|].
  f_equal. apply IH. lia.
Qed.

Lemma filterIndexNe_at {A : Type} (arr : list A) :
  forall index i,
    i <= index ->
    JS.filterIndexNe index i arr
    = take (Z.to_nat (index - i)) arr ++ drop (S (Z.to_nat (index - i))) arr.
Proof.
  induction arr as [|x arr IH]; intros index i Hle.
  - by rewrite take_nil, drop_nil.
  - cbn [JS.filterIndexNe]. destruct (Z.eqb_spec i index) as [->|Hne].
    + rewrite Z.sub_diag. cbn [Z.to_nat take drop app].
      apply filterIndexNe_before. lia.
    + rewrite (IH index (i + 1)) by lia.
      replace (Z.to_nat (index - i)) with (S (Z.to_nat (index - (i + 1)))) by lia.
      reflexivity.
Qed.

(** X11: for a non-negative limit and after any sequence of events, a
    drop never removes or reorders the files already held: they stay at
    the front of the list; the list grows to the limit at most, all the
    dropped files are kept when they fit, and a drop on a full list
    changes nothing. *)
Theorem onDrop_keeps_held_files (maxFiles : Z) (events : list FileUpload.Event)
    (acceptedFiles : list FileUpload.File) :
  0 <= maxFiles ->
  FileUpload.files (FileUpload.run maxFiles events)
    `prefix_of` FileUpload.files (FileUpload.run maxFiles (events ++ [FileUpload.Drop acceptedFiles]))
  /\ length (FileUpload.files
               (FileUpload.run maxFiles (events ++ [FileUpload.Drop acceptedFiles])))
     = Nat.min (Z.to_nat maxFiles)
               (length (FileUpload.files (FileUpload.run maxFiles events))
                + length acceptedFiles)
  /\ (Z.of_nat (length (FileUpload.files (FileUpload.run maxFiles events))
                + length acceptedFiles) <= maxFiles ->
      FileUpload.files (FileUpload.run maxFiles (events ++ [FileUpload.Drop acceptedFiles]))
      = FileUpload.files (FileUpload.run maxFiles events) ++ acceptedFiles)
  /\ (Z.of_nat (length (FileUpload.files (FileUpload.run maxFiles events))) = maxFiles ->
      FileUpload.files (FileUpload.run maxFiles (events ++ [FileUpload.Drop acceptedFiles]))
      = FileUpload.files (FileUpload.run maxFiles events)).
Proof.
  intros Hmax.
  pose proof (run_bounded maxFiles Hmax events) as Hlen.
  rewrite run_snoc. cbn [FileUpload.handle]. rewrite (onDrop_files maxFiles Hmax).
  set (held := FileUpload.files (FileUpload.run maxFiles events)) in *.
  split; [|split; [|split]].
  - exists (take (Z.to_nat maxFiles - length held) acceptedFiles).
    by rewrite take_app_ge by lia.
  - rewrite length_take, length_app. reflexivity.
  - intros Hfit. apply take_ge. rewrite length_app. lia.
  - intros Hfull. rewrite take_app_le by lia. apply take_ge. lia.
Qed.

Lemma onDrop_keeps_held_files_instance :
  0 <= FileUpload.defaultMaxFiles
  /\ FileUpload.files (FileUpload.run FileUpload.defaultMaxFiles FileUpload.sixThenRemove)
       `prefix_of`
     FileUpload.files
       (FileUpload.run FileUpload.defaultMaxFiles
          (FileUpload.sixThenRemove
           ++ [FileUpload.Drop [ {| FileUpload.file_name := "g.md";
                                    FileUpload.file_size := 10 |} ]])).
Proof.
  split; [vm_compute; discriminate|].
  exact (proj1 (onDrop_keeps_held_files FileUpload.defaultMaxFiles FileUpload.sixThenRemove
                  [ {| FileUpload.file_name := "g.md"; FileUpload.file_size := 10 |} ]
                  ltac:(vm_compute; discriminate))).
Defined.

(** X12: removing at an index inside the list takes out exactly the file
    at that index and keeps the others in order, so the list gets one
    shorter; removing at a negative index or at one past the end leaves
    the list as it is. *)
Theorem removeFile_at_index (st : FileUpload.State) (index : Z) :
  (0 <= index < Z.of_nat (length (FileUpload.files st)) ->
   FileUpload.files (FileUpload.removeFile st index)
   = take (Z.to_nat index) (FileUpload.files st)
     ++ drop (S (Z.to_nat index)) (FileUpload.files st)
   /\ S (length (FileUpload.files (FileUpload.removeFile st index)))
      = length (FileUpload.files st))
  /\ (index < 0 \/ Z.of_nat (length (FileUpload.files st)) <= index ->
      FileUpload.files (FileUpload.removeFile st index) = FileUpload.files st).
Proof.
  unfold FileUpload.removeFile. cbn [FileUpload.files].
  split.
  - intros [Hlo Hhi]. rewrite filterIndexNe_at by lia. rewrite Z.sub_0_r.
    split; [reflexivity|].
    rewrite length_app, length_take, length_drop. lia.
  - intros [Hneg|Hpast].
    + by apply filterIndexNe_before.
    + rewrite filterIndexNe_at by lia. rewrite Z.sub_0_r.
      rewrite take_ge by lia. rewrite drop_ge by lia. apply app_nil_r.
Qed.

(** X13: dropping one file while there is room for it and then removing
    at the index it took, which is the length the list had before, gives
    back the list as it was. *)
Theorem drop_then_remove (maxFiles : Z) (st : FileUpload.State) (file : FileUpload.File) :
  Z.of_nat (length (FileUpload.files st)) < maxFiles ->
  FileUpload.files
    (FileUpload.removeFile (FileUpload.onDrop maxFiles st [file])
       (Z.of_nat (length (FileUpload.files st))))
  = FileUpload.files st.
Proof.
  intros Hroom.
  assert (Hmax : 0 <= maxFiles) by lia.
  unfold FileUpload.removeFile. cbn [FileUpload.files].
  rewrite (onDrop_files maxFiles Hmax).
  rewrite (take_ge (FileUpload.files st ++ [file])) by (rewrite length_app; simpl; lia).
  rewrite filterIndexNe_at by lia.
  rewrite Z.sub_0_r, Nat2Z.id.
  rewrite take_app_length. rewrite drop_ge by (rewrite length_app; simpl; lia).
  apply app_nil_r.
Qed.

Lemma drop_then_remove_instance :
  Z.of_nat (length (FileUpload.files FileUpload.initial)) < FileUpload.defaultMaxFiles
  /\ FileUpload.files
       (FileUpload.removeFile
          (FileUpload.onDrop FileUpload.defaultMaxFiles FileUpload.initial
             [ {| FileUpload.file_name := "a.md"; FileUpload.file_size := 1 |} ])
          (Z.of_nat (length (FileUpload.files FileUpload.initial))))
     = FileUpload.files FileUpload.initial.
Proof.
  split; [vm_compute; reflexivity|].
  exact (drop_then_remove FileUpload.defaultMaxFiles FileUpload.initial
           {| FileUpload.file_name := "a.md"; FileUpload.file_size := 1 |}
           ltac:(vm_compute; reflexivity)).
Defined.

Lemma accept_fold (acceptedTypes : list string) :
  forall (acc : gmap string (list string)) (t : string),
    fold_left (fun acc type => <[type := []]> acc) acceptedTypes acc !! t
    = if decide (t ∈ acceptedTypes) then Some [] else acc !! t.
Proof.
  induction acceptedTypes as [|type types IH]; intros acc t.
  - cbn. by rewrite decide_False by apply not_elem_of_nil.
  - cbn [fold_left]. rewrite IH.
    destruct (decide (t ∈ types)) as [Hin|Hnin].
    + by rewrite decide_True by (by right).
    + destruct (decide (t = type)) as [->|Hne].
      * rewrite lookup_insert_eq. by rewrite decide_True by left.
      * rewrite lookup_insert_ne by done.
        rewrite decide_False; [done|]. by intros [?|?]%elem_of_cons.
Qed.

(** X14: the [accept] option built for the dropzone has exactly the
    accepted types as its keys, each mapped to the empty list, however
    often a type is repeated; for the default types these are the seven
    distinct extensions. *)
Theorem accept_keys (acceptedTypes : list string) :
  (forall t : string,
     FileUploadMore.accept acceptedTypes !! t
     = if decide (t ∈ acceptedTypes) then Some [] else None)
  /\ dom (FileUploadMore.accept acceptedTypes) = list_to_set acceptedTypes
  /\ (size (FileUploadMore.accept acceptedTypes) <= length acceptedTypes)%nat
  /\ size (FileUploadMore.accept FileUploadMore.defaultAcceptedTypes) = 7%nat.
Proof.
  assert (Hlookup : forall t : string,
     FileUploadMore.accept acceptedTypes !! t
     = if decide (t ∈ acceptedTypes) then Some [] else None).
  { intros t. unfold FileUploadMore.accept. by rewrite accept_fold, lookup_empty. }
  assert (Hdom : dom (FileUploadMore.accept acceptedTypes)
                 =@{gset string} list_to_set acceptedTypes).
  { apply set_eq. intros t. rewrite elem_of_dom, Hlookup, elem_of_list_to_set.
    destruct (decide (t ∈ acceptedTypes)) as [Hin|Hnin].
    - split; [done|]. intros _. by eexists.
    - split; [|done]. by intros [? ?]. }
  split; [exact Hlookup|]. split; [exact Hdom|]. split.
  - rewrite <- size_dom, Hdom. clear.
    induction acceptedTypes as [|t types IH]; [by rewrite list_to_set_nil, size_empty|].
    rewrite list_to_set_cons, size_union_alt, size_singleton. cbn [length].
    assert (Hsub : list_to_set types ∖ {[t]} ⊆ (list_to_set types : gset string))
      by apply subseteq_difference_l, reflexivity.
    apply subseteq_size in Hsub. lia.
  - vm_compute. reflexivity.
Qed.

(** X15: the size drawn next to a file is its size in bytes divided by
    1024 and rounded to the nearest integer, halves up: it is within 512
    bytes of the real size, does not decrease when the size grows, and is
    0 for every file below 512 bytes. *)
Theorem sizeKB_rounds (file other : FileUpload.File) :
  1024 * FileUploadMore.sizeKB file - 512 <= FileUpload.file_size file
  /\ FileUpload.file_size file < 1024 * FileUploadMore.sizeKB file + 512
  /\ (FileUpload.file_size file <= FileUpload.file_size other ->
      FileUploadMore.sizeKB file <= FileUploadMore.sizeKB other)
  /\ (0 <= FileUpload.file_size file < 512 -> FileUploadMore.sizeKB file = 0).
Proof.
  unfold FileUploadMore.sizeKB.
  pose proof (Z.div_mod (2 * FileUpload.file_size file + 1024) 2048 ltac:(lia)) as Hdm.
  pose proof (Z.mod_pos_bound (2 * FileUpload.file_size file + 1024) 2048 ltac:(lia)) as Hb.
  split; [lia|]. split; [lia|]. split.
  - intros Hle. apply Z.div_le_mono; lia.
  - intros Hsmall. apply Z.div_small. lia.
Qed.

(** X16: for a non-negative limit and after any sequence of events, the
    file count handed to the dropzone stays between 0 and the limit and
    is 0 exactly when the list is full; the 'Uploaded files' block is
    absent exactly when no file is held and has one row per file
    otherwise. *)
Theorem dropzone_options (maxFiles : Z) (events : list FileUpload.Event) :
  0 <= maxFiles ->
  0 <= FileUploadMore.dropzoneMaxFiles maxFiles (FileUpload.run maxFiles events) <= maxFiles
  /\ (FileUploadMore.dropzoneMaxFiles maxFiles (FileUpload.run maxFiles events) = 0 <->
      Z.of_nat (length (FileUpload.files (FileUpload.run maxFiles events))) = maxFiles)
  /\ (FileUploadMore.uploadedRows (FileUpload.run maxFiles events) = None <->
      FileUpload.files (FileUpload.run maxFiles events) = [])
  /\ (forall rows,
        FileUploadMore.uploadedRows (FileUpload.run maxFiles events) = Some rows ->
        map fst rows
        = map FileUpload.file_name (FileUpload.files (FileUpload.run maxFiles events))).
Proof.
  intros Hmax.
  pose proof (run_bounded maxFiles Hmax events) as Hlen.
  unfold FileUploadMore.dropzoneMaxFiles, FileUploadMore.uploadedRows.
  split; [lia|]. split; [lia|].
  destruct (FileUpload.files (FileUpload.run maxFiles events)) as [|f fs].
  - split; [done|]. intros rows. discriminate.
  - destruct (Z.ltb_spec 0 (Z.of_nat (length (f :: fs)))) as [_|Hle];
      [|simpl in Hle; lia].
    split; [split; discriminate|].
    intros rows [= <-]. cbn [map fst]. f_equal. by rewrite map_map.
Qed.

Lemma dropzone_options_instance :
  0 <= FileUpload.defaultMaxFiles
  /\ 0 <= FileUploadMore.dropzoneMaxFiles FileUpload.defaultMaxFiles
            (FileUpload.run FileUpload.defaultMaxFiles FileUpload.sixThenRemove)
     <= FileUpload.defaultMaxFiles.
Proof.
  split; [vm_compute; discriminate|].
  exact (proj1 (dropzone_options FileUpload.defaultMaxFiles FileUpload.sixThenRemove
                  ltac:(vm_compute; discriminate))).
Defined.

(** ** services/api: the read calls and the web socket *)

Lemma str_length_app (a b : string) :
  String.length (a +:+ b) = (String.length a + String.length b)%nat.
Proof.
  induction a as [|c a IH]; [reflexivity|].
  rewrite append_cons. cbn [String.length]. by rewrite IH.
Qed.

Lemma str_app_inj_l (p a b : string) : p +:+ a = p +:+ b -> a = b.
Proof.
  induction p as [|c p IH]; [done|].
  rewrite !append_cons. intros [= H]. by apply IH.
Qed.

Lemma str_app_inj_r (s a b : string) : a +:+ s = b +:+ s -> a = b.
Proof.
  revert b. induction a as [|c a IH]; intros [|d b] H.
  - reflexivity.
  - apply (f_equal String.length) in H. rewrite append_cons in H.
    cbn [String.length] in H. rewrite !str_length_app in H. cbn in H. lia.
  - apply (f_equal String.length) in H. rewrite append_cons in H.
    cbn [String.length] in H. rewrite !str_length_app in H. cbn in H. lia.
  - rewrite !append_cons in H. injection H as -> H. f_equal. by apply IH.
Qed.

Lemma lastChar_app (a b : string) :
  b <> "" -> JSMore.lastChar (a +:+ b) = JSMore.lastChar b.
Proof.
  intros Hb. induction a as [|c a IH]; [reflexivity|].
  rewrite append_cons. cbn [JSMore.lastChar].
  destruct (a +:+ b) as [|d r] eqn:E; [|exact IH].
  destruct a; [|discriminate E]. by destruct Hb.
Qed.




Section ApiReadFacts.

Context {Json : Type}.
Variable VITE_API_URL : option string.
Variable exchange : Api.Request -> option string -> Api.Settled (@Api.Response Json).

Lemma get_sent (url : string) (rt : option string) (sent : list Api.Request)
    (k : @Api.Response Json -> Api.Async Json) :
  (forall r s, fst (k r s) = s) ->
  fst (Api.await (ApiMore.get VITE_API_URL exchange url rt) k sent)
  = sent ++ [ApiMore.getRequest VITE_API_URL url].
Proof.
  intros Hk. unfold Api.await, ApiMore.get.
  destruct (exchange _ rt); [apply Hk|reflexivity].
Qed.

End ApiReadFacts.

(** X17: each read call puts exactly one GET without body on the wire,
    below the [/api] base; the status, output and download calls and the
    list call always address different URLs, whatever the project ids,
    and each per-project call addresses different URLs for different
    ids. *)
Theorem read_calls_are_distinct {Json : Type} (VITE_API_URL : option string)
    (exchange : Api.Request -> option string -> Api.Settled (@Api.Response Json))
    (a b : string) (sent : list Api.Request) :
  (fst (ApiMore.getProjectStatus VITE_API_URL exchange a sent)
   = sent ++ [ApiMore.getRequest VITE_API_URL ("/projects/" +:+ a +:+ "/status")]
   /\ fst (ApiMore.getProjectOutput VITE_API_URL exchange a sent)
      = sent ++ [ApiMore.getRequest VITE_API_URL ("/projects/" +:+ a +:+ "/output")]
   /\ fst (ApiMore.downloadProject VITE_API_URL exchange a sent)
      = sent ++ [ApiMore.getRequest VITE_API_URL ("/projects/" +:+ a +:+ "/download")]
   /\ fst (ApiMore.getAllProjects VITE_API_URL exchange sent)
      = sent ++ [ApiMore.getRequest VITE_API_URL "/projects"])
  /\ (forall url, Api.method (ApiMore.getRequest VITE_API_URL url) = Api.GET
                  /\ Api.body (ApiMore.getRequest VITE_API_URL url) = None
                  /\ Api.baseURL (ApiMore.getRequest VITE_API_URL url)
                     = Api.API_BASE_URL VITE_API_URL +:+ "/api")
  /\ ("/projects/" +:+ a +:+ "/status" = "/projects/" +:+ b +:+ "/status" -> a = b)
  /\ ("/projects/" +:+ a +:+ "/output" = "/projects/" +:+ b +:+ "/output" -> a = b)
  /\ ("/projects/" +:+ a +:+ "/download" = "/projects/" +:+ b +:+ "/download" -> a = b)
  /\ "/projects/" +:+ a +:+ "/status" <> "/projects/" +:+ b +:+ "/output"
  /\ "/projects/" +:+ a +:+ "/status" <> "/projects/" +:+ b +:+ "/download"
  /\ "/projects/" +:+ a +:+ "/output" <> "/projects/" +:+ b +:+ "/download"
  /\ Forall (fun suffix => "/projects" <> "/projects/" +:+ a +:+ suffix)
            ["/status"; "/output"; "/download"].
Proof.
  assert (Hlast : forall (id suffix : string),
            suffix <> "" ->
            JSMore.lastChar ("/projects/" +:+ id +:+ suffix) = JSMore.lastChar suffix).
  { intros id suffix Hs. rewrite <- append_assoc. by apply lastChar_app. }
  assert (Hlen : forall (id suffix : string),
            (9 < String.length ("/projects/" +:+ id +:+ suffix))%nat).
  { intros id suffix. rewrite str_length_app. cbn. lia. }
  split.
  { unfold ApiMore.getProjectStatus, ApiMore.getProjectOutput, ApiMore.downloadProject,
      ApiMore.getAllProjects.
    repeat split; by apply get_sent. }
  split; [done|].
  split; [intros H%str_app_inj_l; by apply str_app_inj_r in H|].
  split; [intros H%str_app_inj_l; by apply str_app_inj_r in H|].
  split; [intros H%str_app_inj_l; by apply str_app_inj_r in H|].
  split.
  { intros H. apply (f_equal JSMore.lastChar) in H.
    rewrite !Hlast in H by discriminate. discriminate H. }
  split.
  { intros H. apply (f_equal JSMore.lastChar) in H.
    rewrite !Hlast in H by discriminate. discriminate H. }
  split.
  { intros H. apply (f_equal JSMore.lastChar) in H.
    rewrite !Hlast in H by discriminate. discriminate H. }
  repeat (apply Forall_cons; split;
          [intros H;
           match type of H with
           | _ = "/projects/" +:+ a +:+ ?sfx => pose proof (Hlen a sfx) as Hl
           end;
           rewrite <- H in Hl; cbn in Hl; lia|]).
  by apply Forall_nil.
Qed.


Section SocketFacts.

Context {Json : Type}.
Variable parse : string -> option Json.

Lemma receive_acc (messages : list string) :
  forall updates,
    fold_left (ApiMore.onmessage parse) messages updates
    = updates ++ omap parse messages.
Proof.
  induction messages as [|m messages IH]; intros updates; cbn [fold_left omap].
  - by rewrite app_nil_r.
  - rewrite IH. unfold ApiMore.onmessage. cbn [omap list_omap].
    destruct (parse m); [by rewrite <- app_assoc|reflexivity].
Qed.

End SocketFacts.

(** X19: the updates handed on by the socket are the messages that parse,
    in the order they arrived; a message that does not parse is dropped
    without affecting the ones before or after it. *)
Theorem receive_delivers_parsable {Json : Type} (parse : string -> option Json)
    (messages later : list string) (bad : string) :
  ApiMore.receive parse messages = omap parse messages
  /\ ApiMore.receive parse (messages ++ later)
     = ApiMore.receive parse messages ++ ApiMore.receive parse later
  /\ (length (ApiMore.receive parse messages) <= length messages)%nat
  /\ (parse bad = None ->
      ApiMore.receive parse (messages ++ bad :: later)
      = ApiMore.receive parse (messages ++ later)).
Proof.
  unfold ApiMore.receive. rewrite !receive_acc. cbn [app].
  split; [reflexivity|]. split; [by rewrite omap_app|].
  split.
  - induction messages as [|m messages IH]; [done|].
    cbn. destruct (parse m); simpl; lia.
  - intros Hbad. rewrite !omap_app. cbn. by rewrite Hbad.
Qed.

(** ** The page: what a click sends *)

Lemma blank_app (a b : string) : Page.blank (a +:+ b) = Page.blank a && Page.blank b.
Proof.
  induction a as [|c a IH]; [reflexivity|].
  rewrite append_cons. cbn [Page.blank]. by rewrite IH, andb_assoc.
Qed.

Lemma trimStart_split (s : string) :
  exists pre, s = pre +:+ JSMore.trimStart s /\ Page.blank pre = true.
Proof.
  induction s as [|c s (pre & Hs & Hpre)]; [by exists ""|].
  cbn [JSMore.trimStart]. destruct (Page.isSpace c) eqn:Hc.
  - exists (String c pre). rewrite append_cons, <- Hs. cbn [Page.blank].
    by rewrite Hc, Hpre.
  - by exists "".
Qed.

Lemma trimStart_first (s : string) (c : ascii) :
  JSMore.firstChar (JSMore.trimStart s) = Some c -> Page.isSpace c = false.
Proof.
  induction s as [|d s IH]; [discriminate|].
  cbn [JSMore.trimStart]. destruct (Page.isSpace d) eqn:Hd; [exact IH|].
  intros [= <-]. exact Hd.
Qed.

Lemma trimEnd_split (s : string) :
  exists post, s = JSMore.trimEnd s +:+ post /\ Page.blank post = true.
Proof.
  induction s as [|c s (post & Hs & Hpost)]; [by exists ""|].
  cbn [JSMore.trimEnd]. destruct (JSMore.trimEnd s) as [|c' r'] eqn:E.
  - change ("" +:+ post) with post in Hs. subst s.
    destruct (Page.isSpace c) eqn:Hc.
    + exists (String c post). split; [reflexivity|]. cbn [Page.blank]. by rewrite Hc.
    + by exists post.
  - exists post. split; [|exact Hpost]. rewrite append_cons. by rewrite <- Hs.
Qed.

Lemma trimEnd_last (s : string) (c : ascii) :
  JSMore.lastChar (JSMore.trimEnd s) = Some c -> Page.isSpace c = false.
Proof.
  induction s as [|d s IH]; [discriminate|].
  cbn [JSMore.trimEnd]. destruct (JSMore.trimEnd s) as [|c' r'] eqn:E.
  - destruct (Page.isSpace d) eqn:Hd; [discriminate|]. by intros [= <-].
  - exact IH.
Qed.

Lemma trimEnd_first (s : string) (c : ascii) :
  JSMore.firstChar s = Some c -> Page.isSpace c = false ->
  JSMore.firstChar (JSMore.trimEnd s) = Some c.
Proof.
  destruct s as [|d s]; [discriminate|]. intros [= ->] Hc.
  cbn [JSMore.trimEnd]. destruct (JSMore.trimEnd s); [by rewrite Hc|reflexivity].
Qed.

Lemma trim_split (s : string) :
  exists pre post,
    s = pre +:+ JSMore.trim s +:+ post
    /\ Page.blank pre = true /\ Page.blank post = true.
Proof.
  destruct (trimStart_split s) as (pre & Hs & Hpre).
  destruct (trimEnd_split (JSMore.trimStart s)) as (post & Ht & Hpost).
  exists pre, post. unfold JSMore.trim. by rewrite <- Ht.
Qed.

Lemma blank_trim (s : string) : Page.blank s = true <-> JSMore.trim s = "".
Proof.
  split.
  - intros Hs. destruct (trim_split s) as (pre & post & Heq & _ & _).
    rewrite Heq, !blank_app in Hs.
    apply andb_true_iff in Hs as [_ Hs]. apply andb_true_iff in Hs as [Hs _].
    unfold JSMore.trim in *.
    destruct (JSMore.trimEnd (JSMore.trimStart s)) as [|c r] eqn:E; [reflexivity|].
    assert (Hfirst : JSMore.firstChar (JSMore.trimStart s) = Some c).
    { destruct (JSMore.trimStart s) as [|d t] eqn:Et; [discriminate E|].
      pose proof (trimStart_first s d) as Hd. rewrite Et in Hd.
      specialize (Hd eq_refl).
      pose proof (trimEnd_first (String d t) d eq_refl Hd) as Hf.
      rewrite E in Hf. cbn in Hf. by rewrite Hf. }
    apply trimStart_first in Hfirst. cbn [Page.blank] in Hs. by rewrite Hfirst in Hs.
  - intros Ht. destruct (trim_split s) as (pre & post & Heq & Hpre & Hpost).
    rewrite Heq, Ht, !blank_app, Hpre, Hpost. reflexivity.
Qed.

(** X20: a click sends a request exactly when the button is not
    disabled.  The request is a POST to the submit address with the two
    form fields 'description' and 'language' and never a file; the
    description sent is what was typed without the white space around it:
    it is not empty and neither starts nor ends with white space. *)
Theorem click_sends_trimmed_description (st : Page.State) :
  (PageMore.clickRequest st = None <-> PageMore.submitDisabled st = true)
  /\ (forall request,
        PageMore.clickRequest st = Some request ->
        PageMore.fetch_url request = "http://localhost:8000/api/projects/submit"
        /\ PageMore.fetch_method request = Api.POST
        /\ PageMore.fetch_body request
           = Some [ ("description", Api.Text (JSMore.trim (Page.description st)));
                    ("language", Api.Text (Page.selectedLanguage st)) ]
        /\ JSMore.trim (Page.description st) <> ""
        /\ (exists pre post,
              Page.description st = pre +:+ JSMore.trim (Page.description st) +:+ post
              /\ Page.blank pre = true /\ Page.blank post = true)
        /\ (forall c, JSMore.firstChar (JSMore.trim (Page.description st)) = Some c ->
                      Page.isSpace c = false)
        /\ (forall c, JSMore.lastChar (JSMore.trim (Page.description st)) = Some c ->
                      Page.isSpace c = false)).
Proof.
  unfold PageMore.clickRequest, PageMore.submitDisabled.
  destruct (Page.blank (Page.description st)) eqn:Hblank.
  { split; [by rewrite orb_true_r|]. intros request. discriminate. }
  destruct (Page.isSubmitting st).
  { split; [done|]. intros request. discriminate. }
  split; [split; discriminate|].
  intros request [= <-]. cbn.
  split; [reflexivity|]. split; [reflexivity|]. split; [reflexivity|].
  split.
  { intros Hempty. apply blank_trim in Hempty. congruence. }
  split; [apply trim_split|].
  split.
  - intros c Hc. unfold JSMore.trim in Hc.
    destruct (JSMore.trimStart (Page.description st)) as [|d t] eqn:Et; [discriminate Hc|].
    pose proof (trimStart_first (Page.description st) d) as Hd. rewrite Et in Hd.
    specialize (Hd eq_refl).
    rewrite (trimEnd_first (String d t) d eq_refl Hd) in Hc. by injection Hc as <-.
  - intros c. apply trimEnd_last.
Qed.

Lemma includes_refl (s : string) : JS.includes s s = true.
Proof.
  rewrite includes_unfold. apply orb_true_iff. left.
  rewrite <- (append_nil_r s) at 2. apply str_prefix_self_app.
Qed.

Lemma includes_join (sep : string) (parts : list string) (name : string) :
  name ∈ parts -> JS.includes (JSMore.join sep parts) name = true.
Proof.
  induction parts as [|x parts IH]; [by intros ?%elem_of_nil|].
  intros Hin. cbn [JSMore.join]. destruct parts as [|y parts].
  - apply elem_of_cons in Hin as [Heq|Hin]; [|by apply elem_of_nil in Hin].
    rewrite Heq. apply includes_refl.
  - apply elem_of_cons in Hin as [Heq|Hin].
    + rewrite Heq. apply includes_app_l, includes_refl.
    + apply includes_app_r, includes_app_r. by apply IH.
Qed.

(** X21: attaching files only edits the description.  With no file
    chosen nothing changes; with at least one, the description becomes
    not blank, so the button is enabled unless a submission is under way,
    it still starts with what was typed before, every chosen name occurs
    in it, and the project, status and polling held by the page are the
    same. *)
Theorem attachment_names_go_into_description (st : Page.State) (fileNames : list string) :
  PageMore.handleFileAttachment st [] = st
  /\ (fileNames <> [] ->
      Page.blank (Page.description (PageMore.handleFileAttachment st fileNames)) = false
      /\ PageMore.submitDisabled (PageMore.handleFileAttachment st fileNames)
         = Page.isSubmitting st
      /\ (exists rest,
            Page.description (PageMore.handleFileAttachment st fileNames)
            = Page.description st +:+ rest)
      /\ (forall name, name ∈ fileNames ->
            JS.includes (Page.description (PageMore.handleFileAttachment st fileNames)) name
            = true)
      /\ Page.result (PageMore.handleFileAttachment st fileNames) = Page.result st
      /\ Page.status (PageMore.handleFileAttachment st fileNames) = Page.status st
      /\ Page.isPolling (PageMore.handleFileAttachment st fileNames) = Page.isPolling st).
Proof.
  split; [reflexivity|]. intros Hne.
  unfold PageMore.handleFileAttachment.
  destruct (Z.ltb_spec 0 (Z.of_nat (length fileNames))) as [_|Hle];
    [|destruct fileNames; [done|simpl in Hle; lia]].
  cbn [Page.handle Page.description Page.result Page.status Page.isPolling
       PageMore.submitDisabled Page.isSubmitting].
  unfold PageMore.submitDisabled. cbn [Page.description Page.isSubmitting].
  assert (Hblank : Page.blank (PageMore.appendParagraph (Page.description st)
                     ("Attached files: " +:+ JSMore.join ", " fileNames)) = false).
  { unfold PageMore.appendParagraph. destruct (Page.description st) as [|c r].
    - reflexivity.
    - rewrite !blank_app.
      change (Page.blank ("Attached files: " +:+ JSMore.join ", " fileNames)) with false.
      by rewrite !andb_false_r. }
  split; [exact Hblank|]. split; [by rewrite Hblank, orb_false_r|].
  split.
  { unfold PageMore.appendParagraph. destruct (Page.description st) as [|c r]; by eexists. }
  split; [|done].
  intros name Hin. unfold PageMore.appendParagraph.
  destruct (Page.description st) as [|c r].
  - apply includes_app_r. by apply includes_join.
  - apply includes_app_r, includes_app_r, includes_app_r, includes_app_r.
    by apply includes_join.
Qed.

(** X22: a click while the button is disabled changes nothing, and a
    click right after a submission that succeeded sends nothing and
    changes nothing either, because the description has been cleared. *)
Theorem second_click_is_ignored (st : Page.State) (project : Page.Project)
    (outcome : Api.Settled Page.Project) :
  (PageMore.submitDisabled st = true -> Page.handleButtonClick st outcome = st)
  /\ Page.handleButtonClick (Page.handleButtonClick st (Api.Fulfilled project)) outcome
     = Page.handleButtonClick st (Api.Fulfilled project)
  /\ PageMore.clickRequest (Page.handleButtonClick st (Api.Fulfilled project)) = None.
Proof.
  unfold PageMore.submitDisabled, PageMore.clickRequest, Page.handleButtonClick.
  destruct (Page.blank (Page.description st)) eqn:Hblank.
  { rewrite Hblank. by rewrite orb_true_r. }
  destruct (Page.isSubmitting st) eqn:Hsub.
  { by rewrite Hblank, Hsub. }
  cbn. by repeat split.
Qed.

(** ** The page: polling sessions, resubmission and failures *)

Lemma tick_while_polling (st : Page.State) (f : Page.Fetched) :
  Page.polling st = true ->
  PageMore.endsPolling f = false ->
  Page.polling (Page.handle st (Page.PollTick f)) = true
  /\ Page.status (Page.handle st (Page.PollTick f))
     = match f with
       | Page.Answer r => if PageMore.stored f then Some r else Page.status st
       | Page.Threw => Page.status st
       end.
Proof.
  intros Hpoll Hends. cbn [Page.handle]. rewrite Hpoll.
  destruct f as [r|]; [|by split].
  unfold Page.polling in *. rewrite pollStatus_result, pollStatus_isPolling, pollStatus_status.
  apply andb_true_iff in Hpoll as [-> ->]. cbn [andb].
  unfold PageMore.endsPolling, PageMore.stored in *.
  destruct (Page.notFoundError r); [by split|]. cbn in *. by rewrite Hends.
Qed.

Lemma ticks_while_polling (answers : list Page.Fetched) :
  forall st,
    Page.polling st = true ->
    Forall (fun f => PageMore.endsPolling f = false) answers ->
    Page.polling (fold_left Page.handle (map Page.PollTick answers) st) = true.
Proof.
  induction answers as [|f answers IH]; intros st Hpoll Hall; [exact Hpoll|].
  apply Forall_cons in Hall as [Hf Hall]. cbn [map fold_left].
  apply IH; [|exact Hall]. by apply tick_while_polling.
Qed.

Lemma tick_that_ends (st : Page.State) (r : Page.StatusResponse) :
  Page.polling st = true ->
  PageMore.endsPolling (Page.Answer r) = true ->
  Page.status (Page.handle st (Page.PollTick (Page.Answer r))) = Some r
  /\ Page.isPolling (Page.handle st (Page.PollTick (Page.Answer r))) = false.
Proof.
  intros Hpoll Hends. cbn [Page.handle]. rewrite Hpoll.
  rewrite pollStatus_status, pollStatus_isPolling.
  unfold PageMore.endsPolling in Hends. apply andb_true_iff in Hends as [Hnf Hstop].
  apply negb_true_iff in Hnf. rewrite Hnf, Hstop. cbn. by rewrite andb_false_r.
Qed.

Lemma not_timer_in_ticks (answers : list Page.Fetched) :
  Page.PollingTimerFired ∉ map Page.PollTick answers.
Proof.
  induction answers as [|f answers IH]; [apply not_elem_of_nil|].
  cbn [map]. apply not_elem_of_cons. by split.
Qed.

(** X23: with each poll answered before the next one is made, a polling
    session ends up holding the first answer that is stored and names a
    terminal phase: the failed polls, the not-found answers and the
    stored answers before it never stop the polling, and no tick after
    it replaces it. *)
Theorem polling_session_stops_at_first_terminal (st : Page.State)
    (earlier later : list Page.Fetched) (r : Page.StatusResponse) :
  Page.polling st = true ->
  Forall (fun f => PageMore.endsPolling f = false) earlier ->
  PageMore.endsPolling (Page.Answer r) = true ->
  Page.status (fold_left Page.handle
                 (map Page.PollTick (earlier ++ Page.Answer r :: later)) st) = Some r
  /\ Page.isPolling (fold_left Page.handle
                       (map Page.PollTick (earlier ++ Page.Answer r :: later)) st) = false
  /\ Page.polling (fold_left Page.handle (map Page.PollTick earlier) st) = true.
Proof.
  intros Hpoll Hearlier Hends.
  pose proof (ticks_while_polling earlier st Hpoll Hearlier) as Hstill.
  rewrite map_app, fold_left_app. cbn [map fold_left].
  destruct (tick_that_ends _ r Hstill Hends) as [Hstatus Hoff].
  destruct (idle_status_kept (map Page.PollTick later) _ Hoff (not_timer_in_ticks later))
    as [-> ->].
  by rewrite Hstatus.
Qed.

Lemma polling_session_instance :
  Page.polling Page.submittedPage = true
  /\ Forall (fun f => PageMore.endsPolling f = false) (take 3 PageMore.polledAnswers)
  /\ PageMore.endsPolling (Page.Answer Page.completedAnswer) = true
  /\ Page.status (fold_left Page.handle
                    (map Page.PollTick
                       (take 3 PageMore.polledAnswers
                        ++ Page.Answer Page.completedAnswer
                           :: [Page.Answer Page.failedAnswer]))
                    Page.submittedPage)
     = Some Page.completedAnswer.
Proof.
  assert (H2 : Forall (fun f => PageMore.endsPolling f = false)
                      (take 3 PageMore.polledAnswers)).
  { cbn. repeat (apply Forall_cons; split; [reflexivity|]). by apply Forall_nil. }
  split; [reflexivity|]. split; [exact H2|]. split; [reflexivity|].
  exact (proj1 (polling_session_stops_at_first_terminal Page.submittedPage
                  (take 3 PageMore.polledAnswers) [Page.Answer Page.failedAnswer]
                  Page.completedAnswer eq_refl H2 eq_refl)).
Defined.

(** X24: an answer to a poll that is not ok, and a poll that fails, leave
    the whole page as it was, whatever the body of the answer says; an ok
    answer is handled as its body. *)
Theorem failed_poll_changes_nothing (st : Page.State)
    (response : PageMore.FetchResponse Page.StatusResponse) :
  Page.handle st (Page.PollTick (PageMore.statusFetched None)) = st
  /\ (PageMore.resp_ok response = false ->
      Page.handle st (Page.PollTick (PageMore.statusFetched (Some response))) = st)
  /\ (PageMore.resp_ok response = true ->
      Page.handle st (Page.PollTick (PageMore.statusFetched (Some response)))
      = Page.handle st (Page.PollTick (Page.Answer (PageMore.resp_json response)))).
Proof.
  unfold PageMore.statusFetched. cbn [Page.handle].
  split; [by destruct (Page.polling st)|].
  split; intros ->; cbn [negb]; [by destruct (Page.polling st)|reflexivity].
Qed.

(** X25: when the server answers a submission with an error status, the
    page shows a message that names the status and the answer's text and
    keeps everything else: the description as typed, the project and
    status held before and the polling flag, so the same click can be
    made again. *)
Theorem rejected_submission_keeps_input (st : Page.State)
    (response : PageMore.FetchResponse Page.Project) :
  PageMore.resp_ok response = false ->
  PageMore.submitDisabled st = false ->
  Page.error (Page.handle st (Page.Submitted (PageMore.submitProjectDirect response)))
  = "HTTP error! status: " +:+ pretty (PageMore.resp_status response)
    +:+ " - " +:+ PageMore.resp_text response
  /\ Page.description (Page.handle st (Page.Submitted (PageMore.submitProjectDirect response)))
     = Page.description st
  /\ Page.result (Page.handle st (Page.Submitted (PageMore.submitProjectDirect response)))
     = Page.result st
  /\ Page.status (Page.handle st (Page.Submitted (PageMore.submitProjectDirect response)))
     = Page.status st
  /\ Page.isPolling (Page.handle st (Page.Submitted (PageMore.submitProjectDirect response)))
     = Page.isPolling st
  /\ PageMore.clickRequest
       (Page.handle st (Page.Submitted (PageMore.submitProjectDirect response)))
     = PageMore.clickRequest st.
Proof.
  intros Hok Hen. unfold PageMore.submitDisabled in Hen.
  apply orb_false_iff in Hen as [Hsub Hblank].
  unfold PageMore.submitProjectDirect. rewrite Hok. cbn [negb Page.handle].
  unfold Page.handleButtonClick, PageMore.clickRequest. rewrite Hblank, Hsub.
  cbn. by rewrite Hblank.
Qed.

Lemma rejected_submission_instance :
  PageMore.resp_ok {| PageMore.resp_ok := false; PageMore.resp_status := 500;
                      PageMore.resp_text := "boom";
                      PageMore.resp_json := PageMore.secondProject |} = false
  /\ PageMore.submitDisabled PageMore.typedPage = false
  /\ Page.description
       (Page.handle PageMore.typedPage
          (Page.Submitted
             (PageMore.submitProjectDirect
                {| PageMore.resp_ok := false; PageMore.resp_status := 500;
                   PageMore.resp_text := "boom";
                   PageMore.resp_json := PageMore.secondProject |})))
     = Page.description PageMore.typedPage.
Proof.
  split; [reflexivity|]. split; [reflexivity|].
  exact (proj1 (proj2 (rejected_submission_keeps_input PageMore.typedPage
                         {| PageMore.resp_ok := false; PageMore.resp_status := 500;
                            PageMore.resp_text := "boom";
                            PageMore.resp_json := PageMore.secondProject |}
                         eq_refl eq_refl))).
Defined.

(** X26: only a poll changes the status the page holds.  So when a new
    project is submitted while the download action of an earlier one is
    drawn, the action stays drawn although the page now holds the new
    project, and a click on it saves under the new project's id. *)
Theorem download_action_survives_resubmission (st : Page.State) (project : Page.Project) :
  Page.showsDownload st = true ->
  PageMore.submitDisabled st = false ->
  Page.result (Page.handle st (Page.Submitted (Api.Fulfilled project))) = Some project
  /\ Page.status (Page.handle st (Page.Submitted (Api.Fulfilled project))) = Page.status st
  /\ Page.showsDownload (Page.handle st (Page.Submitted (Api.Fulfilled project))) = true
  /\ (forall e, (forall f, e <> Page.PollTick f) ->
                Page.status (Page.handle st e) = Page.status st)
  /\ (forall fetchDownload fileName contents projectId,
        Page.id project = Some projectId ->
        Page.handleDownload (Page.handle st (Page.Submitted (Api.Fulfilled project)))
          fetchDownload = Page.Saved fileName contents ->
        fileName = "project-" +:+ projectId +:+ ".zip"
        /\ exists response, fetchDownload projectId = inl response).
Proof.
  intros Hshow Hen. unfold PageMore.submitDisabled in Hen.
  apply orb_false_iff in Hen as [Hsub Hblank].
  assert (Hst : Page.handle st (Page.Submitted (Api.Fulfilled project))
                = {| Page.description := "";
                     Page.selectedLanguage := Page.selectedLanguage st;
                     Page.isSubmitting := false;
                     Page.result := Some project;
                     Page.error := "";
                     Page.status := Page.status st;
                     Page.isPolling := Page.isPolling st |}).
  { cbn [Page.handle]. unfold Page.handleButtonClick. by rewrite Hblank, Hsub. }
  rewrite Hst. cbn [Page.result Page.status].
  split; [reflexivity|]. split; [reflexivity|].
  split.
  { unfold Page.showsDownload in *. cbn [Page.result Page.status].
    destruct (Page.result st); [exact Hshow|discriminate]. }
  split.
  { intros e He. destruct e as [text|lang|outcome| |f]; cbn [Page.handle]; try reflexivity.
    - unfold Page.handleButtonClick.
      destruct (Page.blank (Page.description st)); [reflexivity|].
      destruct (Page.isSubmitting st); [reflexivity|]. by destruct outcome.
    - by destruct (He f). }
  intros fetchDownload fileName contents projectId Hid Hsaved.
  unfold Page.handleDownload, Page.hasId in Hsaved.
  cbn [Page.result negb mbind option_bind] in Hsaved.
  rewrite Hid in Hsaved.
  destruct (Page.truthy (Some projectId)); cbn [negb] in Hsaved; [|discriminate Hsaved].
  cbn [negb] in Hsaved.
  destruct (fetchDownload projectId) as [response|msg]; [|discriminate Hsaved].
  destruct (Page.ok response); [|discriminate Hsaved].
  injection Hsaved as <- <-. split; [reflexivity|]. by exists response.
Qed.

Lemma download_action_survives_instance :
  Page.showsDownload PageMore.completedPage = true
  /\ PageMore.submitDisabled PageMore.completedPage = false
  /\ Page.showsDownload
       (Page.handle PageMore.completedPage
          (Page.Submitted (Api.Fulfilled PageMore.secondProject))) = true.
Proof.
  split; [reflexivity|]. split; [reflexivity|].
  exact (proj1 (proj2 (proj2 (download_action_survives_resubmission
                                PageMore.completedPage PageMore.secondProject
                                eq_refl eq_refl)))).
Defined.

(** X27: every phase text for which the download action is drawn also
    ends the polling, and the only phase text that ends the polling
    without the action being drawn is 'Failed'.  So once a poll has
    stored a status for which the action is drawn, the page polls no
    more. *)
Theorem download_drawn_implies_polling_ended (currentPhase : option string)
    (st : Page.State) (r : Page.StatusResponse) :
  (Page.phaseComplete currentPhase = true -> Page.stopsPolling currentPhase = true)
  /\ (Page.stopsPolling currentPhase = true ->
      Page.phaseComplete currentPhase = false ->
      currentPhase = Some "Failed")
  /\ (Page.notFoundError r = false ->
      Page.showsDownload (Page.pollStatus st (Page.Answer r)) = true ->
      Page.isPolling (Page.pollStatus st (Page.Answer r)) = false).
Proof.
  assert (Himp : forall cp, Page.phaseComplete cp = true -> Page.stopsPolling cp = true).
  { intros [p|]; cbn [Page.phaseComplete Page.stopsPolling]; [|discriminate].
    intros H. apply orb_true_iff in H as [H|H]; rewrite H; [done|].
    by rewrite !orb_true_r. }
  split; [apply Himp|]. split.
  - destruct currentPhase as [p|]; cbn [Page.phaseComplete Page.stopsPolling]; [|discriminate].
    intros Hstop Hno. apply orb_false_iff in Hno as [Hc Hi].
    rewrite Hc, Hi in Hstop. cbn in Hstop. rewrite orb_false_r in Hstop.
    apply String.eqb_eq in Hstop. by subst.
  - intros Hnf. cbn [Page.pollStatus]. rewrite Hnf.
    destruct (Page.stopsPolling (Page.resp_currentPhase r)) eqn:Hstop; [reflexivity|].
    unfold Page.showsDownload. cbn [Page.result Page.status Page.isPolling].
    destruct (Page.result st); [|discriminate].
    intros Hshow. apply Himp in Hshow. congruence.
Qed.

(** X28: in the page's list of agents none of the four statuses an agent
    can have gets the green or the blue badge, which are kept for
    'active' and 'processing': every agent is drawn with the grey
    badge. *)
Theorem agent_badges_are_grey (a : AgentState) :
  PageMore.agentBadge (TrackerCards.statusText a) = "bg-gray-100 text-gray-800"
  /\ PageMore.agentBadge "active" <> PageMore.agentBadge (TrackerCards.statusText a)
  /\ PageMore.agentBadge "processing" <> PageMore.agentBadge (TrackerCards.statusText a).
Proof. destruct a; repeat split; discriminate. Qed.
